(** * funny_simulator: price histories and the portfolio simulator

    A shallow embedding of [mode_config.py] and [trading_simulator.py].

    - [decimal.Decimal] values are finite decimals [coefficient * 10 ^ exponent]
      computed in the default context: every arithmetic result is rounded to
      28 significant digits, ties to even.  The special values (NaN, the
      infinities, the sign of zero) and the exponent limits of the context
      are outside the model.
    - Python [int]s are [Z], [str]s are [string], the [defaultdict(int)] of
      holdings is a [gmap string Z] whose reads insert the default.
    - A method is a function from the object to an outcome (a value or a
      raised exception) and the object afterwards.
    - The terminal is the list of lines still to be read and the list of
      messages written so far; the wording of the messages, the logo file
      and the pauses are not modelled.
    - The exchange that [RealAssetPriceHistory] asks and the calendar are
      taken as given. *)

From Stdlib Require Import ZArith Lia Bool List.
From stdpp Require Import base option numbers gmap strings list fin_maps.

Local Open Scope Z_scope.

(* ===================================================================== *)
(** * [decimal.Decimal] in the default context                            *)
(* ===================================================================== *)

Record Decimal := mkDecimal { coefficient : Z; exponent : Z }.

Declare Scope decimal_scope.
Delimit Scope decimal_scope with D.
Bind Scope decimal_scope with Decimal.

(** [getcontext().prec] *)
Definition prec : Z := 28.

(** [Decimal(n)] for an [int]: exact. *)
Definition Decimal_of_int (n : Z) : Decimal := mkDecimal n 0.

Fixpoint digits_upto (fuel : nat) (n : Z) : Z :=
  match fuel with
  | O => 1
  | S fuel' => if n <? 10 then 1 else 1 + digits_upto fuel' (n / 10)
  end.

(** [len(str(n))] for [n >= 0]: the number of decimal digits, 1 for 0. *)
Definition ndigits (n : Z) : Z := digits_upto (Z.to_nat (Z.log2 n)) n.

(** ROUND_HALF_EVEN of [n / 10 ^ k] for [n >= 0]. *)
Definition round_half_even (n k : Z) : Z :=
  let q := n / 10 ^ k in
  let r := n mod 10 ^ k in
  if 2 * r <? 10 ^ k then q
  else if 10 ^ k <? 2 * r then q + 1
  else if Z.even q then q else q + 1.

(** [Decimal._fix]: round to [prec] significant digits.  A coefficient that
    the round-up carries to [10 ^ prec] loses its last digit. *)
Definition Decimal_fix (d : Decimal) : Decimal :=
  let n := Z.abs (coefficient d) in
  let k := ndigits n - prec in
  if k <=? 0 then d
  else
    let q := round_half_even n k in
    if q =? 10 ^ prec
    then mkDecimal (Z.sgn (coefficient d) * 10 ^ (prec - 1)) (exponent d + k + 1)
    else mkDecimal (Z.sgn (coefficient d) * q) (exponent d + k).

(** The coefficient of [d] written at the exponent [e <= exponent d]. *)
Definition scaled (e : Z) (d : Decimal) : Z := coefficient d * 10 ^ (exponent d - e).

(** [a + b]: the exact sum at the smaller exponent, then [_fix]. *)
Definition Decimal_add (a b : Decimal) : Decimal :=
  let e := Z.min (exponent a) (exponent b) in
  Decimal_fix (mkDecimal (scaled e a + scaled e b) e).

Definition Decimal_neg (a : Decimal) : Decimal :=
  mkDecimal (- coefficient a) (exponent a).

(** [a - b] is [a + (-b)] ([__sub__] adds [copy_negate]). *)
Definition Decimal_sub (a b : Decimal) : Decimal := Decimal_add a (Decimal_neg b).

(** [a * b]: the exact product, then [_fix]. *)
Definition Decimal_mul (a b : Decimal) : Decimal :=
  Decimal_fix (mkDecimal (coefficient a * coefficient b) (exponent a + exponent b)).

(** [Decimal._cmp]: comparison of the numerical values. *)
Definition Decimal_cmp (a b : Decimal) : comparison :=
  let e := Z.min (exponent a) (exponent b) in
  scaled e a ?= scaled e b.

Definition Decimal_ltb (a b : Decimal) : bool :=
  match Decimal_cmp a b with Lt => true | _ => false end.

(** [a == b] on decimals: equal values, whatever the exponents. *)
Definition Decimal_eqb (a b : Decimal) : bool :=
  match Decimal_cmp a b with Eq => true | _ => false end.

Infix "+" := Decimal_add : decimal_scope.
Infix "-" := Decimal_sub : decimal_scope.
Infix "*" := Decimal_mul : decimal_scope.
Infix "<?" := Decimal_ltb : decimal_scope.
Infix "=?" := Decimal_eqb : decimal_scope.

(** The propositions the theorems speak in. *)
Definition Decimal_eq (a b : Decimal) : Prop := Decimal_cmp a b = Eq.
Definition Decimal_lt (a b : Decimal) : Prop := Decimal_cmp a b = Lt.
Definition Decimal_le (a b : Decimal) : Prop := Decimal_cmp a b <> Gt.

(** A value that already fits the context precision. *)
Definition fits (d : Decimal) : Prop := ndigits (Z.abs (coefficient d)) <= prec.

(** The sum [a + b] came out without rounding error. *)
Definition exact_add (a b : Decimal) : Prop :=
  let e := Z.min (exponent a) (exponent b) in
  scaled e (Decimal_add a b) = scaled e a + scaled e b.

(** [sum(xs)]: starts from the [int] 0 and adds from the left. *)
Definition Decimal_sum (xs : list Decimal) : Decimal :=
  fold_left Decimal_add xs (Decimal_of_int 0).

(* ===================================================================== *)
(** * mode_config.py                                                      *)
(* ===================================================================== *)

(** The exceptions that leave the modelled methods.  [AttributeError] only
    occurs inside [getattr], where [buy] and [sell] catch it. *)
Inductive exn :=
  | NotEnoughCash | WrongAssetName | NotEnoughAsset | StopGameException
  | StopIteration | TypeError | OverflowError.

Inductive outcome (A : Type) :=
  | Return (a : A)
  | Raised (e : exn).
Arguments Return {A} a.
Arguments Raised {A} e.

(** ** [datetime.date]

    A date is its proleptic Gregorian ordinal; [date.min] is 1 and
    [date.max], 9999-12-31, is 3652059. *)
Definition date := Z.
Definition MAXORDINAL : Z := 3652059.
Definition valid_date (d : date) : Prop := 1 <= d <= MAXORDINAL.

(** [d + timedelta(days=n)]: [None] stands for the [OverflowError] of a
    [timedelta] beyond 999999999 days or of a date outside the range. *)
Definition date_add_days (d : date) (n : Z) : option date :=
  if (Z.abs n <=? 999999999) && (1 <=? d + n) && (d + n <=? MAXORDINAL)
  then Some (d + n) else None.

(** ** [AssetPrice] *)
Record AssetPrice := mkAssetPrice {
  BTC : Decimal; ETH : Decimal; BNB : Decimal; SOL : Decimal;
  MKR : Decimal; XPR : Decimal; ADA : Decimal }.

(** [AssetPrice.__dataclass_fields__]: the field names in definition order,
    each with its accessor. *)
Definition dataclass_fields : list (string * (AssetPrice -> Decimal)) :=
  [("BTC", BTC); ("ETH", ETH); ("BNB", BNB); ("SOL", SOL);
   ("MKR", MKR); ("XPR", XPR); ("ADA", ADA)]%string.

(** [__dataclass_fields__.keys()] *)
Definition field_names : list string := dataclass_fields.*1.

Fixpoint field_lookup (fs : list (string * (AssetPrice -> Decimal))) (name : string)
  : option (AssetPrice -> Decimal) :=
  match fs with
  | [] => None
  | (f, get) :: fs' => if String.eqb name f then Some get else field_lookup fs' name
  end.

(** The names an instance of the dataclass answers to besides its fields:
    what [object] and the [dataclass] decorator provide (Python 3.10, the
    first version with the [match] statement of [user_action]).  The source
    itself reads one of them, [__dataclass_fields__], in [asset_values]. *)
Definition object_attributes : list string :=
  ["__dataclass_fields__"; "__dataclass_params__"; "__match_args__";
   "__annotations__"; "__class__"; "__dict__"; "__doc__"; "__module__";
   "__weakref__"; "__init__"; "__repr__"; "__eq__"; "__hash__"; "__ne__";
   "__lt__"; "__le__"; "__gt__"; "__ge__"; "__str__"; "__format__";
   "__getattribute__"; "__setattr__"; "__delattr__"; "__dir__"; "__new__";
   "__init_subclass__"; "__subclasshook__"; "__reduce__"; "__reduce_ex__";
   "__sizeof__"]%string.

Inductive attribute :=
  | Price (d : Decimal)      (* a field: the price *)
  | NotAPrice                (* a method, class, dict, str, tuple or None *)
  | AttributeError.          (* no such attribute *)

(** [getattr(prices, name)] *)
Definition getattr (prices : AssetPrice) (name : string) : attribute :=
  match field_lookup dataclass_fields name with
  | Some get => Price (get prices)
  | None => if existsb (String.eqb name) object_attributes then NotAPrice
            else AttributeError
  end.

(** ** Iterators of [(date, AssetPrice)] pairs

    [next(it)] either returns a pair or raises ([StopIteration] at the end),
    and leaves the iterator in a new state. *)
Class Iterator (I : Type) := next : I -> outcome (date * AssetPrice) * I.

(** [AssetPriceHistory]: the abstract base class; all it promises is
    [__iter__]. *)
Class AssetPriceHistory (H : Type) := {
  iterator : Type;
  iter : H -> iterator;
  #[global] iterator_next :: Iterator iterator }.

(** A history that is a plain finite sequence of pairs (a Python list, or a
    subclass whose [__iter__] yields from one): its iterator hands out the
    pairs in order and then keeps raising [StopIteration]. *)
#[global] Instance list_next : Iterator (list (date * AssetPrice)) :=
  fun it => match it with
            | [] => (Raised StopIteration, [])
            | x :: it' => (Return x, it')
            end.

#[global] Instance list_history : AssetPriceHistory (list (date * AssetPrice)) :=
  {| iterator := list (date * AssetPrice); iter := fun h => h |}.

(** The outcome of the [n]-th call of [next] (counted from 0) and the
    iterator after it. *)
Fixpoint nth_next {I} `{Iterator I} (n : nat) (it : I) : outcome (date * AssetPrice) * I :=
  match n with
  | O => next it
  | S n' => nth_next n' (next it).2
  end.

(** The iterator after [n] calls of [next]. *)
Fixpoint after {I} `{Iterator I} (n : nat) (it : I) : I :=
  match n with
  | O => it
  | S n' => after n' (next it).2
  end.

(** ** [random.Random]

    The generator is taken as given: its state, what [seed] makes of an
    integer, and [uniform(a, b)], which returns a float and advances the
    state.  [Decimal_of_float] is the exact conversion [Decimal(x)]. *)
Class PyRandom := {
  float : Type;
  Random : Type;
  Random_seed : Z -> Random;
  Random_uniform : float -> float -> Random -> float * Random;
  Decimal_of_float : float -> Decimal }.

Section RandomAssetPriceHistory.
Context `{PyRandom}.

#[global] Instance Random_inhabited : Inhabited Random := populate (Random_seed 0).

(** The [Random] objects alive, by reference. *)
Definition store := gmap nat Random.

(** [self.random] is a reference: two iterators of one history share the
    generator, two histories never do. *)
Record RandomAssetPriceHistory := {
  price_multiplier : float * float;
  seed : Z;
  random : nat }.

(** The constructor with its [__post_init__]: a fresh [Random], seeded. *)
Definition RandomAssetPriceHistory_new (price_multiplier : float * float) (seed : Z)
    (σ : gmap nat Random) : RandomAssetPriceHistory * gmap nat Random :=
  let r := fresh (dom σ) in
  ({| price_multiplier := price_multiplier; seed := seed; random := r |},
   <[r := Random_seed seed]> σ).

Definition base_asset_price : AssetPrice := {|
  BTC := mkDecimal 20000 0; ETH := mkDecimal 1500 0; BNB := mkDecimal 300 0;
  SOL := mkDecimal 25 0; MKR := mkDecimal 1200 0;
  XPR := mkDecimal 5 (-1); ADA := mkDecimal 5 (-1) |}.

(** The generator object that [__iter__] returns.  [today] is what
    [date.today()] answers when the body starts, which is at the first
    [next]; [day] is the next value of [count()]. *)
Record generator := {
  self : RandomAssetPriceHistory;
  today : date;
  day : Z;
  previous_asset_price : AssetPrice;
  closed : bool }.

Definition RandomAssetPriceHistory_iter (clock : date) (self : RandomAssetPriceHistory)
    : generator :=
  {| self := self; today := clock; day := 0;
     previous_asset_price := base_asset_price; closed := false |}.

(** [Decimal(self.random.uniform(low, high))], with [(low, high)] the
    [price_multiplier] *)
Definition draw (self : RandomAssetPriceHistory) (σ : gmap nat Random)
    : Decimal * gmap nat Random :=
  let '(x, r) := Random_uniform (price_multiplier self).1 (price_multiplier self).2
                   (σ !!! random self) in
  (Decimal_of_float x, <[random self := r]> σ).

(** The dict comprehension of [__iter__]: one draw per field, in the order
    of [AssetPrice.__dataclass_fields__]. *)
Definition next_asset_price (self : RandomAssetPriceHistory) (previous : AssetPrice)
    (σ : gmap nat Random) : AssetPrice * gmap nat Random :=
  let '(m1, σ) := draw self σ in
  let '(m2, σ) := draw self σ in
  let '(m3, σ) := draw self σ in
  let '(m4, σ) := draw self σ in
  let '(m5, σ) := draw self σ in
  let '(m6, σ) := draw self σ in
  let '(m7, σ) := draw self σ in
  ({| BTC := BTC previous * m1; ETH := ETH previous * m2;
      BNB := BNB previous * m3; SOL := SOL previous * m4;
      MKR := MKR previous * m5; XPR := XPR previous * m6;
      ADA := ADA previous * m7 |}%D, σ).

Definition close (g : generator) : generator :=
  {| self := self g; today := today g; day := day g;
     previous_asset_price := previous_asset_price g; closed := true |}.

(** One turn of the loop [for day in count()], up to the [yield].  An
    exception ends the generator for good. *)
Definition generator_next (g : generator) (σ : gmap nat Random)
    : outcome (date * AssetPrice) * generator * gmap nat Random :=
  if closed g then (Raised StopIteration, g, σ)
  else
    match date_add_days (today g) (day g) with
    | None => (Raised OverflowError, close g, σ)
    | Some date_ =>
        let '(asset_price, σ') :=
          if day g =? 0 then (previous_asset_price g, σ)
          else next_asset_price (self g) (previous_asset_price g) σ in
        (Return (date_, asset_price),
         {| self := self g; today := today g; day := day g + 1;
            previous_asset_price := asset_price; closed := false |},
         σ')
    end.

(** A generator together with the store it draws from is an iterator. *)
#[global] Instance generator_iterator : Iterator (generator * gmap nat Random) :=
  fun it => let '(r, g, σ) := generator_next it.1 it.2 in (r, (g, σ)).

(** A random history as the simulator receives it: the object, the store
    it lives in, and the date of the first pull. *)
#[global] Instance random_history
    : AssetPriceHistory (RandomAssetPriceHistory * gmap nat Random * date) :=
  {| iterator := generator * gmap nat Random;
     iter := fun h => (RandomAssetPriceHistory_iter h.2 h.1.1, h.1.2) |}.

(** The outcomes of [n] successive calls of [next] on one generator. *)
Fixpoint pulls (n : nat) (g : generator) (σ : gmap nat Random)
    : list (outcome (date * AssetPrice)) :=
  match n with
  | O => []
  | S n' => let '(r, g', σ') := generator_next g σ in r :: pulls n' g' σ'
  end.

(** The [n] multipliers that [n] successive draws from the state [r]
    produce. *)
Fixpoint multipliers (n : nat) (low high : float) (r : Random) : list Decimal :=
  match n with
  | O => []
  | S n' => let '(x, r') := Random_uniform low high r in
            Decimal_of_float x :: multipliers n' low high r'
  end.

(** The state of the generator after [n] draws. *)
Fixpoint Random_after (n : nat) (low high : float) (r : Random) : Random :=
  match n with
  | O => r
  | S n' => Random_after n' low high (Random_uniform low high r).2
  end.

(** Two generator objects in the same place of the same walk: they may
    belong to different histories, with the same multiplier range. *)
Definition alike (g g' : generator) : Prop :=
  today g = today g' /\ day g = day g' /\
  previous_asset_price g = previous_asset_price g' /\
  closed g = closed g' /\
  price_multiplier (self g) = price_multiplier (self g').

(** Pulling from two generators in an arbitrary interleaving: [true] pulls
    from the first, [false] from the second.  Returns what each produced,
    in order. *)
Fixpoint interleave (schedule : list bool) (g1 g2 : generator) (σ : gmap nat Random)
    : list (outcome (date * AssetPrice)) * list (outcome (date * AssetPrice)) :=
  match schedule with
  | [] => ([], [])
  | true :: schedule' =>
      let '(r, g1', σ') := generator_next g1 σ in
      let '(out1, out2) := interleave schedule' g1' g2 σ' in
      (r :: out1, out2)
  | false :: schedule' =>
      let '(r, g2', σ') := generator_next g2 σ in
      let '(out1, out2) := interleave schedule' g1 g2' σ' in
      (out1, r :: out2)
  end.

End RandomAssetPriceHistory.

(** Valid data: no price is negative. *)
Definition nonneg_prices (p : AssetPrice) : Prop :=
  Forall (fun f => Decimal_le (Decimal_of_int 0) (f.2 p)) dataclass_fields.

(* ===================================================================== *)
(** * trading_simulator.py                                                *)
(* ===================================================================== *)

(** [defaultdict(int).__getitem__]: a missing key is inserted with 0. *)
Definition defaultdict_getitem (d : gmap string Z) (key : string) : Z * gmap string Z :=
  match d !! key with
  | Some v => (v, d)
  | None => (0, <[key := 0]> d)
  end.

Section PortfolioSimulator.
Context {I : Type} `{Iterator I}.

(** The attributes of a [PortfolioSimulator] once [__post_init__] is
    through; [days] is the iterator over the history. *)
Record PortfolioSimulator := {
  days : I;
  cash : Decimal;
  assets : gmap string Z;
  day_count : Z;
  current_date : date;
  current_prices : AssetPrice;
  initial_value : Decimal }.

Definition set_cash (c : Decimal) (s : PortfolioSimulator) : PortfolioSimulator :=
  {| days := days s; cash := c; assets := assets s; day_count := day_count s;
     current_date := current_date s; current_prices := current_prices s;
     initial_value := initial_value s |}.

Definition set_assets (a : gmap string Z) (s : PortfolioSimulator) : PortfolioSimulator :=
  {| days := days s; cash := cash s; assets := a; day_count := day_count s;
     current_date := current_date s; current_prices := current_prices s;
     initial_value := initial_value s |}.

Definition set_days (it : I) (s : PortfolioSimulator) : PortfolioSimulator :=
  {| days := it; cash := cash s; assets := assets s; day_count := day_count s;
     current_date := current_date s; current_prices := current_prices s;
     initial_value := initial_value s |}.

Definition set_initial_value (v : Decimal) (s : PortfolioSimulator) : PortfolioSimulator :=
  {| days := days s; cash := cash s; assets := assets s; day_count := day_count s;
     current_date := current_date s; current_prices := current_prices s;
     initial_value := v |}.

(** What the object holds of a symbol: 0 when the key is absent. *)
Definition holding (s : PortfolioSimulator) (asset : string) : Z :=
  default 0 (assets s !! asset).

(** [next_day]: the pair is unpacked first, the counter goes up after. *)
Definition next_day (s : PortfolioSimulator) : outcome unit * PortfolioSimulator :=
  match next (days s) with
  | (Return (d, p), it) =>
      (Return tt,
       {| days := it; cash := cash s; assets := assets s;
          day_count := day_count s + 1;
          current_date := d; current_prices := p;
          initial_value := initial_value s |})
  | (Raised e, it) => (Raised e, set_days it s)
  end.

(** [buy] *)
Definition buy (asset : string) (amount : Z) (s : PortfolioSimulator)
    : outcome unit * PortfolioSimulator :=
  match getattr (current_prices s) asset with
  | AttributeError => (Raised WrongAssetName, s)
  | NotAPrice => (Raised TypeError, s)
  | Price price =>
      let cost := (price * Decimal_of_int amount)%D in
      if (cash s <? cost)%D then (Raised NotEnoughCash, s)
      else
        let s := set_cash (cash s - cost)%D s in
        let '(quantity, a) := defaultdict_getitem (assets s) asset in
        (Return tt, set_assets (<[asset := quantity + amount]> a) s)
  end.

(** [sell] *)
Definition sell (asset : string) (amount : Z) (s : PortfolioSimulator)
    : outcome unit * PortfolioSimulator :=
  match assets s !! asset with
  | None => (Raised WrongAssetName, s)
  | Some current_quantity =>
      if current_quantity <? amount then (Raised NotEnoughAsset, s)
      else
        match getattr (current_prices s) asset with
        | AttributeError => (Raised WrongAssetName, s)
        | NotAPrice => (Raised TypeError, s)
        | Price price =>
            let s := set_cash (cash s + price * Decimal_of_int amount)%D s in
            (Return tt, set_assets (<[asset := current_quantity - amount]> (assets s)) s)
        end
  end.

(** The comprehension of [asset_values] over the fields in order; every
    read of [self.assets[asset]] leaves the key behind. *)
Fixpoint asset_values_loop (fs : list (string * (AssetPrice -> Decimal)))
    (prices : AssetPrice) (a : gmap string Z)
    : list (string * Z * Decimal) * gmap string Z :=
  match fs with
  | [] => ([], a)
  | (asset, get) :: fs' =>
      let '(quantity, a) := defaultdict_getitem a asset in
      let '(rest, a) := asset_values_loop fs' prices a in
      if quantity =? 0 then (rest, a)
      else ((asset, quantity, (get prices * Decimal_of_int quantity)%D) :: rest, a)
  end.

(** [asset_values] *)
Definition asset_values (s : PortfolioSimulator)
    : list (string * Z * Decimal) * PortfolioSimulator :=
  let '(vs, a) := asset_values_loop dataclass_fields (current_prices s) (assets s) in
  (vs, set_assets a s).

(** [value] *)
Definition value (s : PortfolioSimulator) : Decimal * PortfolioSimulator :=
  let '(vs, s') := asset_values s in
  ((cash s + Decimal_sum (vs.*2))%D, s').

(** [profit] *)
Definition profit (s : PortfolioSimulator) : Decimal * PortfolioSimulator :=
  let '(v, s') := value s in
  ((v - initial_value s')%D, s').

(** The generated [__init__] followed by [__post_init__], from the
    iterator [iter(self.history)] on.  [assets] and [day_count] are the
    two fields a caller may also pass. *)
Definition PortfolioSimulator_init (days : I) (cash : Decimal)
    (assets : gmap string Z) (day_count : Z) : outcome PortfolioSimulator :=
  if (cash <? Decimal_of_int 0)%D then Raised NotEnoughCash
  else
    match next days with
    | (Raised e, _) => Raised e
    | (Return (d, p), it) =>
        let s := {| days := it; cash := cash; assets := assets;
                    day_count := day_count + 1;
                    current_date := d; current_prices := p;
                    initial_value := Decimal_of_int 0 |} in
        let '(v, s) := value s in
        Return (set_initial_value v s)
    end.

(** Choice 3 of [user_action]: the end of the history stops the game. *)
Definition end_day (s : PortfolioSimulator) : outcome unit * PortfolioSimulator :=
  match next_day s with
  | (Raised StopIteration, s') => (Raised StopGameException, s')
  | r => r
  end.

(** The calls a driver makes on the object between two prompts, and a run
    of them.  A call that raises leaves the object as it is at the raise;
    the next call, if the driver makes one, acts on that. *)
Inductive command :=
  | Buy (asset : string) (amount : Z)
  | Sell (asset : string) (amount : Z)
  | NextDay
  | Summary.        (* [print_summary]: reads [asset_values], [value], [profit] *)

Definition exec (c : command) (s : PortfolioSimulator) : outcome unit * PortfolioSimulator :=
  match c with
  | Buy asset amount => buy asset amount s
  | Sell asset amount => sell asset amount s
  | NextDay => next_day s
  | Summary => (Return tt, (profit s).2)
  end.

Definition run_commands (cs : list command) (s : PortfolioSimulator) : PortfolioSimulator :=
  fold_left (fun s c => (exec c s).2) cs s.

(** The states of a simulator built with the default fields. *)
Inductive reachable : PortfolioSimulator -> Prop :=
  | reachable_init days cash s :
      PortfolioSimulator_init days cash ∅ 0 = Return s -> reachable s
  | reachable_exec c s : reachable s -> reachable (exec c s).2.

(** A buy or a sell as the specification admits it: a positive quantity
    of a tracked symbol. *)
Definition valid_command (c : command) : Prop :=
  match c with
  | Buy asset amount | Sell asset amount => 0 < amount /\ asset ∈ field_names
  | NextDay | Summary => True
  end.

(** Every pair the iterator will ever hand out has a snapshot in [P]. *)
Definition yields_only (P : AssetPrice -> Prop) (it : I) : Prop :=
  forall n d p it', nth_next n it = (Return (d, p), it') -> P p.

(** The invariant of the specification, with what keeps it: no negative
    cash, no negative holding, and valid prices today and later. *)
Record sound (s : PortfolioSimulator) : Prop := {
  sound_cash : Decimal_le (Decimal_of_int 0) (cash s);
  sound_assets : map_Forall (fun _ quantity => 0 <= quantity) (assets s);
  sound_prices : nonneg_prices (current_prices s);
  sound_days : yields_only nonneg_prices (days s) }.

(** The keys of the holdings are the tracked symbols, no more, no less. *)
Definition tracks (s : PortfolioSimulator) : Prop :=
  forall k, is_Some (assets s !! k) <-> k ∈ field_names.

(** Everything but the cash and the holdings. *)
Definition same_day (s s' : PortfolioSimulator) : Prop :=
  days s' = days s /\ day_count s' = day_count s /\
  current_date s' = current_date s /\ current_prices s' = current_prices s /\
  initial_value s' = initial_value s.

End PortfolioSimulator.

Arguments PortfolioSimulator I : clear implicits.

(** [PortfolioSimulator(history=history, cash=cash)]: the other fields at
    their defaults, no holdings and day counter 0. *)
Definition create {H} `{AssetPriceHistory H} (history : H) (cash : Decimal)
    : outcome (PortfolioSimulator iterator) :=
  PortfolioSimulator_init (iter history) cash ∅ 0.

(** A small linear congruential generator to run the examples with: floats
    are thousandths, [uniform(low, high)] scales the new state into
    [[low, high)]. *)
#[global] Instance lcg_random : PyRandom := {|
  float := Z;
  Random := Z;
  Random_seed := fun seed => seed mod 2 ^ 31;
  Random_uniform := fun low high r =>
    let r' := (1103515245 * r + 12345) mod 2 ^ 31 in
    (low + (high - low) * r' / 2 ^ 31, r');
  Decimal_of_float := fun x => mkDecimal x (-3) |}.

(** Example data: a date in range (2026-11-04), the base prices with
    another price for BTC, and short list-backed histories. *)
Definition example_date : date := 739924.

Definition base_with_BTC (price : Z) : AssetPrice := {|
  BTC := mkDecimal price 0; ETH := ETH base_asset_price;
  BNB := BNB base_asset_price; SOL := SOL base_asset_price;
  MKR := MKR base_asset_price; XPR := XPR base_asset_price;
  ADA := ADA base_asset_price |}.

Definition one_day : list (date * AssetPrice) :=
  [(example_date, base_asset_price)].

Definition two_days : list (date * AssetPrice) :=
  [(example_date, base_with_BTC 20000); (example_date + 1, base_with_BTC 25000)].

(** A random history for the examples: multipliers from 0.5 to 1.5 (in
    thousandths), seed 42, alone in its store. *)
Definition example_walk : RandomAssetPriceHistory * gmap nat Random :=
  RandomAssetPriceHistory_new (500, 1500) 42 ∅.

(** A schedule that pulls [n] times from each of two generators, in
    turns. *)
Fixpoint in_turns (n : nat) : list bool :=
  match n with
  | O => []
  | S n' => true :: false :: in_turns n'
  end.

(** Valid data in the strict sense: every price is positive. *)
Definition positive_prices (p : AssetPrice) : Prop :=
  Forall (fun f => Decimal_lt (Decimal_of_int 0) (f.2 p)) dataclass_fields.

(** The prices of a snapshot in the order of the fields. *)
Definition price_list (p : AssetPrice) : list Decimal :=
  (fun f => f.2 p) <$> dataclass_fields.

(** A day on which one price is negative: BTC at 1 and ETH at -1. *)
Definition with_negative_ETH : AssetPrice := {|
  BTC := mkDecimal 1 0; ETH := mkDecimal (-1) 0;
  BNB := BNB base_asset_price; SOL := SOL base_asset_price;
  MKR := MKR base_asset_price; XPR := XPR base_asset_price;
  ADA := ADA base_asset_price |}.

(** The random walk in the words of the specification, on the list of the
    seven prices in the order of the fields: day 0 has the prices it starts
    from; every later day multiplies each price of the day before by a
    draw of its own, the seven draws of a day being the next seven results
    of [uniform] on the generator, the first for the first field and so
    on. *)
Fixpoint specified_walk `{PyRandom} (k : nat) (prices : list Decimal)
    (low high : float) (r : Random) : list Decimal :=
  match k with
  | O => prices
  | S k' =>
      specified_walk k' (zip_with Decimal_mul prices (multipliers 7 low high r))
        low high (Random_after 7 low high r)
  end.

(* ===================================================================== *)
(** * The terminal dialogue of trading_simulator.py                       *)
(* ===================================================================== *)

(** What leaves the dialogue besides the exceptions of the engine: the
    [EOFError] of [input] at the end of the input, the signals that the
    default decimal context traps in [//], and the two lookups that the
    menus guard. *)
Inductive failure :=
  | Exn (e : exn)
  | EOFError
  | IndexError
  | UncaughtAttributeError
  | DivisionByZero
  | InvalidOperation.

Inductive result (A : Type) :=
  | Done (a : A)
  | Failed (e : failure).
Arguments Done {A} a.
Arguments Failed {A} e.

(** [a // b] on decimals: the quotient cut to its integer part, with
    exponent 0.  A zero divisor signals [DivisionByZero], or
    [DivisionUndefined] for [0 // 0]; a quotient of more than [prec] digits
    signals [DivisionImpossible]; the last two are [InvalidOperation]s. *)
Definition Decimal_floordiv (a b : Decimal) : result Decimal :=
  if coefficient b =? 0 then
    Failed (if coefficient a =? 0 then InvalidOperation else DivisionByZero)
  else
    let e := Z.min (exponent a) (exponent b) in
    let q := Z.quot (scaled e a) (scaled e b) in
    if 10 ^ prec <=? Z.abs q then Failed InvalidOperation
    else Done (mkDecimal q 0).

Infix "//" := Decimal_floordiv (at level 40, left associativity) : decimal_scope.

(** What the program writes: one constructor for each [print] (or run of
    [print]s) and each prompt of the source, with the data that goes into
    the text.  The wording and the number formats are left out. *)
Inductive message :=
  (* [input_int] *)
  | not_a_number
  (* the prompts *)
  | ask_action
  | ask_asset_to_buy
  | ask_amount_to_buy (asset : string) (max_amount : Decimal)
  | ask_asset_to_sell
  | ask_amount_to_sell (asset : string) (quantity : Z)
  (* [buy_action] *)
  | assets_to_buy (assets_list : list string)
  | cannot_buy_any (asset : string)
  | max_to_buy (asset : string) (max_amount : Decimal)
  | too_many_to_buy (max_amount : Decimal) (asset : string)
  | bought (amount : Z) (asset : string)
  (* [sell_action] *)
  | nothing_to_sell
  | assets_to_sell (owned_assets : list (string * Z))
  | too_many_to_sell (quantity : Z) (asset : string)
  | sold (amount : Z) (asset : string)
  (* both *)
  | wrong_choice (choices : nat)
  | exception (e : exn)
  (* [user_action] *)
  | wrong_action
  (* [print_greeting], [print_summary], [print_result] *)
  | greeting
  | summary (day_count : Z) (listing : option (list (string * Z * Decimal)))
      (cash value profit : Decimal) (prices : list (string * Decimal))
  | stonks
  | break_even
  | not_stonks.

(** The terminal: the lines still to be read, without their line ends, and
    what has been written so far, oldest first. *)
Record terminal := { stdin : list string; stdout : list message }.

Definition print (m : message) (t : terminal) : terminal :=
  {| stdin := stdin t; stdout := stdout t ++ [m] |}.

(** [input(prompt)] *)
Definition input (prompt : message) (t : terminal) : result string * terminal :=
  match stdin t with
  | [] => (Failed EOFError, print prompt t)
  | line :: rest => (Done line, {| stdin := rest; stdout := stdout t ++ [prompt] |})
  end.

(** The built-ins that work on text and on dictionaries are taken as
    given: [int(line)], with [None] for its [ValueError]; [line.strip()];
    and [d.items()], the items of a dictionary in the order of
    insertion, which the [gmap] of the holdings does not record. *)
Class Builtins := {
  int : string -> option Z;
  strip : string -> string;
  items : gmap string Z -> list (string * Z) }.

(** [items] lists what the dictionary holds, in some order. *)
Definition items_listed `{Builtins} : Prop :=
  forall a : gmap string Z, items a ≡ₚ map_to_list a.

Section dialogue.
Context {I : Type} `{Iterator I} `{Builtins}.

(** [input_int]: the loop over the lines of the input; every line that
    [int] refuses costs a prompt and a complaint. *)
Fixpoint input_int_lines (prompt : message) (lines : list string) (out : list message)
    : result Z * terminal :=
  match lines with
  | [] => (Failed EOFError, {| stdin := []; stdout := out ++ [prompt] |})
  | line :: rest =>
      match int line with
      | Some n => (Done n, {| stdin := rest; stdout := out ++ [prompt] |})
      | None => input_int_lines prompt rest (out ++ [prompt; not_a_number])
      end
  end.

Definition input_int (prompt : message) (t : terminal) : result Z * terminal :=
  input_int_lines prompt (stdin t) (stdout t).

(** [except (WrongAssetName, NotEnoughCash)] *)
Definition caught_by_buy_action (e : exn) : bool :=
  match e with WrongAssetName | NotEnoughCash => true | _ => false end.

(** The [while True] of [buy_action].  Every round reads at least one
    line, so [fuel] above the number of lines left is never used up. *)
Fixpoint buy_action_loop (fuel : nat) (assets_list : list string)
    (s : PortfolioSimulator I) (t : terminal)
    : result unit * PortfolioSimulator I * terminal :=
  match fuel with
  | O => (Failed EOFError, s, t)
  | S fuel =>
      match input_int ask_asset_to_buy t with
      | (Failed e, t) => (Failed e, s, t)
      | (Done asset_idx, t) =>
          if (1 <=? asset_idx) && (asset_idx <=? Z.of_nat (length assets_list)) then
            match assets_list !! Z.to_nat (asset_idx - 1) with
            | None => (Failed IndexError, s, t)
            | Some asset =>
                match getattr (current_prices s) asset with
                | AttributeError => (Failed UncaughtAttributeError, s, t)
                | NotAPrice => (Failed (Exn TypeError), s, t)
                | Price price =>
                    match (cash s // price)%D with
                    | Failed e => (Failed e, s, t)
                    | Done max_amount =>
                        if (max_amount =? Decimal_of_int 0)%D
                        then (Done tt, s, print (cannot_buy_any asset) t)
                        else
                          let t := print (max_to_buy asset max_amount) t in
                          match input_int (ask_amount_to_buy asset max_amount) t with
                          | (Failed e, t) => (Failed e, s, t)
                          | (Done amount, t) =>
                              if (max_amount <? Decimal_of_int amount)%D
                              then buy_action_loop fuel assets_list s
                                     (print (too_many_to_buy max_amount asset) t)
                              else
                                match buy asset amount s with
                                | (Return _, s) =>
                                    (Done tt, s, print (bought amount asset) t)
                                | (Raised e, s) =>
                                    if caught_by_buy_action e
                                    then buy_action_loop fuel assets_list s
                                           (print (exception e) t)
                                    else (Failed (Exn e), s, t)
                                end
                          end
                    end
                end
            end
          else buy_action_loop fuel assets_list s
                 (print (wrong_choice (length assets_list)) t)
      end
  end.

(** [buy_action] *)
Definition buy_action (s : PortfolioSimulator I) (t : terminal)
    : result unit * PortfolioSimulator I * terminal :=
  let assets_list := field_names in
  let t := print (assets_to_buy assets_list) t in
  buy_action_loop (S (length (stdin t))) assets_list s t.

(** [except (WrongAssetName, NotEnoughAsset)] *)
Definition caught_by_sell_action (e : exn) : bool :=
  match e with WrongAssetName | NotEnoughAsset => true | _ => false end.

(** The [while True] of [sell_action]. *)
Fixpoint sell_action_loop (fuel : nat) (owned_assets : list (string * Z))
    (s : PortfolioSimulator I) (t : terminal)
    : result unit * PortfolioSimulator I * terminal :=
  match fuel with
  | O => (Failed EOFError, s, t)
  | S fuel =>
      match input_int ask_asset_to_sell t with
      | (Failed e, t) => (Failed e, s, t)
      | (Done asset_idx, t) =>
          if (1 <=? asset_idx) && (asset_idx <=? Z.of_nat (length owned_assets)) then
            match owned_assets !! Z.to_nat (asset_idx - 1) with
            | None => (Failed IndexError, s, t)
            | Some (asset, quantity) =>
                match input_int (ask_amount_to_sell asset quantity) t with
                | (Failed e, t) => (Failed e, s, t)
                | (Done amount, t) =>
                    if quantity <? amount
                    then sell_action_loop fuel owned_assets s
                           (print (too_many_to_sell quantity asset) t)
                    else
                      match sell asset amount s with
                      | (Return _, s) => (Done tt, s, print (sold amount asset) t)
                      | (Raised e, s) =>
                          if caught_by_sell_action e
                          then sell_action_loop fuel owned_assets s (print (exception e) t)
                          else (Failed (Exn e), s, t)
                      end
                end
            end
          else sell_action_loop fuel owned_assets s
                 (print (wrong_choice (length owned_assets)) t)
      end
  end.

(** [sell_action] *)
Definition sell_action (s : PortfolioSimulator I) (t : terminal)
    : result unit * PortfolioSimulator I * terminal :=
  let owned_assets := filter (fun x => 0 < x.2) (items (assets s)) in
  match owned_assets with
  | [] => (Done tt, s, print nothing_to_sell t)
  | _ :: _ =>
      let t := print (assets_to_sell owned_assets) t in
      sell_action_loop (S (length (stdin t))) owned_assets s t
  end.

(** [user_action]; the [sleep] calls only pass time. *)
Definition user_action (s : PortfolioSimulator I) (t : terminal)
    : result unit * PortfolioSimulator I * terminal :=
  match input ask_action t with
  | (Failed e, t) => (Failed e, s, t)
  | (Done line, t) =>
      let action := strip line in
      if String.eqb action "1" then buy_action s t
      else if String.eqb action "2" then sell_action s t
      else if String.eqb action "3" then
        match end_day s with
        | (Return _, s) => (Done tt, s, t)
        | (Raised e, s) => (Failed (Exn e), s, t)
        end
      else if String.eqb action "4" then (Failed (Exn StopGameException), s, t)
      else (Done tt, s, print wrong_action t)
  end.

(** [print_summary]: [asset_values] is read for the test of [any], again
    for the lines if one quantity is positive, and then inside [value] and
    [profit]. *)
Definition print_summary (s : PortfolioSimulator I) (t : terminal)
    : PortfolioSimulator I * terminal :=
  let n := day_count s in
  let '(vs, s) := asset_values s in
  let '(listing, s) :=
    if existsb (fun x : string * Z * Decimal => 0 <? x.1.2) vs
    then let '(vs, s) := asset_values s in (Some vs, s)
    else (None, s) in
  let c := cash s in
  let '(v, s) := value s in
  let '(p, s) := profit s in
  (s, print (summary n listing c v p
               ((fun f => (f.1, f.2 (current_prices s))) <$> dataclass_fields)) t).

(** [print_result] *)
Definition print_result (s : PortfolioSimulator I) (t : terminal)
    : PortfolioSimulator I * terminal :=
  let '(p, s) := profit s in
  (s, print (if (Decimal_of_int 0 <? p)%D then stonks
             else if (p =? Decimal_of_int 0)%D then break_even
             else not_stonks) t).

(** The [while True] of [run]: a summary, an action, and out on
    [StopGameException].  Every round reads at least one line. *)
Fixpoint run_loop (fuel : nat) (s : PortfolioSimulator I) (t : terminal)
    : result unit * PortfolioSimulator I * terminal :=
  match fuel with
  | O => (Failed EOFError, s, t)
  | S fuel =>
      let '(s, t) := print_summary s t in
      match user_action s t with
      | (Done _, s, t) => run_loop fuel s t
      | (Failed (Exn StopGameException), s, t) => (Done tt, s, t)
      | (Failed e, s, t) => (Failed e, s, t)
      end
  end.

(** [run] *)
Definition run (s : PortfolioSimulator I) (t : terminal)
    : result unit * PortfolioSimulator I * terminal :=
  let t := print greeting t in
  match run_loop (S (length (stdin t))) s t with
  | (Done _, s, t) => let '(s, t) := print_result s t in (Done tt, s, t)
  | (Failed e, s, t) => (Failed e, s, t)
  end.

(** One call on the engine at most, and none of them a summary. *)
Definition one_call (s s' : PortfolioSimulator I) : Prop :=
  s' = s \/ exists c, c <> Summary /\ s' = (exec c s).2.

End dialogue.

(** Built-ins for the examples: [int] reads an optional minus sign and
    decimal digits, [strip] has nothing to strip, and [items] lists the
    dictionary by key. *)
Fixpoint digits_value (acc : Z) (s : string) : option Z :=
  match s with
  | EmptyString => Some acc
  | String c s' =>
      let n := Z.of_N (Ascii.N_of_ascii c) - 48 in
      if (0 <=? n) && (n <=? 9) then digits_value (10 * acc + n) s' else None
  end.

Definition example_int (s : string) : option Z :=
  match s with
  | EmptyString => None
  | String c s' =>
      if (Ascii.N_of_ascii c =? 45)%N
      then match s' with
           | EmptyString => None
           | String _ _ => Z.opp <$> digits_value 0 s'
           end
      else digits_value 0 s
  end.

#[global] Instance example_builtins : Builtins := {|
  int := example_int;
  strip := fun line => line;
  items := map_to_list |}.

(* ===================================================================== *)
(** * [RealAssetPriceHistory]                                             *)
(* ===================================================================== *)

(** The world outside the program is taken as given: [ticker_price symbol]
    is one request to the exchange, parsed, that is
    [Decimal(requests.get(url, params={'symbol': symbol}).json()['price'])],
    with [None] when any step of it raises, and it may change the world;
    [date_today] is what [date.today()] answers. *)
Class Binance := {
  world : Type;
  ticker_price : string -> world -> option Decimal * world;
  date_today : world -> date }.

(** What a pull from the generator of a real history comes to. *)
Inductive pulled :=
  | Yielded (pair : date * AssetPrice)
  | Stopped                (* [StopIteration] *)
  | RequestFailed          (* what the request or its parsing raised *)
  | KeyError.

Section RealAssetPriceHistory.
Context `{Binance}.

(** [RealAssetPriceHistory.symbols] *)
Definition RealAssetPriceHistory_symbols : list string :=
  ["BTCUSDT"; "ETHUSDT"; "BNBUSDT"; "SOLUSDT"; "MKRUSDT"; "XRPUSDT"; "ADAUSDT"]%string.

(** The loop of [get_crypto_prices] over the symbols left, with the
    dictionary built so far. *)
Fixpoint get_crypto_prices_loop (symbols : list string) (prices : gmap string Decimal)
    (w : world) : option (gmap string Decimal) * world :=
  match symbols with
  | [] => (Some prices, w)
  | symbol :: symbols' =>
      match ticker_price symbol w with
      | (None, w) => (None, w)
      | (Some price, w) => get_crypto_prices_loop symbols' (<[symbol := price]> prices) w
      end
  end.

(** [get_crypto_prices] *)
Definition get_crypto_prices (symbols : list string) (w : world)
    : option (gmap string Decimal) * world :=
  get_crypto_prices_loop symbols ∅ w.

(** The [AssetPrice] that [__iter__] builds from the dictionary; [None] is
    the [KeyError] of a missing symbol. *)
Definition AssetPrice_of_prices (prices : gmap string Decimal) : option AssetPrice :=
  match prices !! "BTCUSDT"%string, prices !! "ETHUSDT"%string,
        prices !! "BNBUSDT"%string, prices !! "SOLUSDT"%string,
        prices !! "MKRUSDT"%string, prices !! "XRPUSDT"%string,
        prices !! "ADAUSDT"%string with
  | Some btc, Some eth, Some bnb, Some sol, Some mkr, Some xrp, Some ada =>
      Some {| BTC := btc; ETH := eth; BNB := bnb; SOL := sol;
              MKR := mkr; XPR := xrp; ADA := ada |}
  | _, _, _, _, _, _, _ => None
  end.

(** The generator object of [RealAssetPriceHistory.__iter__]: how many
    rounds of [range(30)] it has been through, and whether it is over. *)
Record real_generator := { rounds : nat; finished : bool }.

Definition RealAssetPriceHistory_iter : real_generator :=
  {| rounds := 0; finished := false |}.

Definition finish (g : real_generator) : real_generator :=
  {| rounds := rounds g; finished := true |}.

(** [next] on that generator, in the world as it is at the call. *)
Definition RealAssetPriceHistory_next (g : real_generator) (w : world)
    : pulled * real_generator * world :=
  if finished g then (Stopped, g, w)
  else if (30 <=? rounds g)%nat then (Stopped, finish g, w)
  else
    match get_crypto_prices RealAssetPriceHistory_symbols w with
    | (None, w) => (RequestFailed, finish g, w)
    | (Some prices, w) =>
        let current_date := date_today w in
        match AssetPrice_of_prices prices with
        | None => (KeyError, finish g, w)
        | Some asset_price =>
            (Yielded (current_date, asset_price),
             {| rounds := S (rounds g); finished := false |}, w)
        end
    end.

(** The pulls made one after the other, each in the world as it is when
    the pull is made. *)
Fixpoint real_pulls (ws : list world) (g : real_generator) : list pulled :=
  match ws with
  | [] => []
  | w :: ws' =>
      let '(r, g', _) := RealAssetPriceHistory_next g w in
      r :: real_pulls ws' g'
  end.

(** The answers to requests for the symbols one after the other, as far as
    they come. *)
Fixpoint answers (symbols : list string) (w : world) : list Decimal * world :=
  match symbols with
  | [] => ([], w)
  | symbol :: symbols' =>
      match ticker_price symbol w with
      | (None, w) => ([], w)
      | (Some price, w) => let '(rest, w) := answers symbols' w in (price :: rest, w)
      end
  end.

End RealAssetPriceHistory.

(** An exchange for the examples: the world counts the requests made, the
    price of every symbol is the count in cents, and the date does not
    move. *)
#[global] Instance example_exchange : Binance := {|
  world := nat;
  ticker_price := fun _ w => (Some (mkDecimal (Z.of_nat w) (-2)), S w);
  date_today := fun _ => example_date |}.

(** An exchange that answers no request. *)
Definition closed_exchange : Binance := {|
  world := unit;
  ticker_price := fun _ w => (None, w);
  date_today := fun _ => example_date |}.


(* ===================================================================== *)
(** * Facts about the decimal arithmetic                                  *)
(* ===================================================================== *)

Lemma pow10_pos (k : Z) : 0 <= k -> 0 < 10 ^ k.
Proof. intros. apply Z.pow_pos_nonneg; lia. Qed.

Lemma pow10_add (a b : Z) : 0 <= a -> 0 <= b -> 10 ^ (a + b) = 10 ^ a * 10 ^ b.
Proof. intros. apply Z.pow_add_r; lia. Qed.

Lemma pow10_succ (a : Z) : 0 <= a -> 10 ^ (a + 1) = 10 * 10 ^ a.
Proof. intros. rewrite pow10_add by lia. change (10 ^ 1) with 10. lia. Qed.

Lemma pow10_le (a b : Z) : 0 <= a <= b -> 10 ^ a <= 10 ^ b.
Proof. intros. apply Z.pow_le_mono_r; lia. Qed.

Lemma pow10_lt (a b : Z) : 0 <= a < b -> 10 ^ a < 10 ^ b.
Proof. intros. apply Z.pow_lt_mono_r; lia. Qed.

Lemma digits_upto_spec (fuel : nat) : forall n,
  0 < n < 2 ^ (Z.of_nat fuel + 1) ->
  1 <= digits_upto fuel n /\
  10 ^ (digits_upto fuel n - 1) <= n < 10 ^ digits_upto fuel n.
Proof.
  induction fuel as [|fuel IH]; intros n Hn.
  - simpl in *. lia.
  - cbn [digits_upto]. destruct (Z.ltb_spec n 10) as [Hlt|Hge].
    + simpl. lia.
    + assert (Hq : 0 < n / 10 < 2 ^ (Z.of_nat fuel + 1)).
      { split.
        - apply Z.div_str_pos; lia.
        - apply Z.div_lt_upper_bound; [lia|].
          replace (Z.of_nat (S fuel) + 1) with (Z.of_nat fuel + 1 + 1) in Hn by lia.
          rewrite Z.pow_add_r in Hn by lia. change (2 ^ 1) with 2 in Hn.
          assert (0 < 2 ^ (Z.of_nat fuel + 1)) by (apply Z.pow_pos_nonneg; lia).
          lia. }
      destruct (IH _ Hq) as (H1 & H2 & H3).
      set (d := digits_upto fuel (n / 10)) in *.
      replace (1 + d - 1) with (d - 1 + 1) by lia.
      replace (1 + d) with (d + 1) by lia.
      rewrite !pow10_succ by lia.
      pose proof (Z.div_mod n 10 ltac:(lia)).
      pose proof (Z.mod_pos_bound n 10 ltac:(lia)).
      lia.
Qed.

Lemma ndigits_spec (n : Z) :
  0 < n -> 1 <= ndigits n /\ 10 ^ (ndigits n - 1) <= n < 10 ^ ndigits n.
Proof.
  intros Hn. unfold ndigits. apply digits_upto_spec.
  split; [lia|].
  rewrite Z2Nat.id by apply Z.log2_nonneg.
  replace (Z.log2 n + 1) with (Z.succ (Z.log2 n)) by lia.
  apply Z.log2_spec. lia.
Qed.

Lemma ndigits_zero : ndigits 0 = 1.
Proof. reflexivity. Qed.

Lemma ndigits_unique (n d : Z) :
  1 <= d -> 10 ^ (d - 1) <= n < 10 ^ d -> ndigits n = d.
Proof.
  intros Hd Hn.
  assert (0 < n) by (pose proof (pow10_pos (d - 1)); lia).
  destruct (ndigits_spec n) as (H1 & H2 & H3); [lia|].
  destruct (Z.lt_trichotomy (ndigits n) d) as [Hlt|[Heq|Hgt]]; [|done|].
  - pose proof (pow10_le (ndigits n) (d - 1)). lia.
  - pose proof (pow10_le d (ndigits n - 1)). lia.
Qed.

Lemma ndigits_bound (n d : Z) : 0 <= n -> 1 <= d -> n < 10 ^ d -> ndigits n <= d.
Proof.
  intros Hn Hd Hlt.
  destruct (Z.eq_dec n 0) as [->|Hnz]; [rewrite ndigits_zero; lia|].
  destruct (ndigits_spec n) as (H1 & H2 & H3); [lia|].
  destruct (Z.le_gt_cases (ndigits n) d) as [|Hgt]; [done|].
  pose proof (pow10_le d (ndigits n - 1)). lia.
Qed.

Lemma ndigits_pad (n j : Z) : 0 < n -> 0 <= j -> ndigits (n * 10 ^ j) = ndigits n + j.
Proof.
  intros Hn Hj.
  destruct (ndigits_spec n) as (H1 & H2 & H3); [lia|].
  apply ndigits_unique; [lia|].
  replace (ndigits n + j - 1) with (ndigits n - 1 + j) by lia.
  rewrite !pow10_add by lia.
  pose proof (pow10_pos j Hj). nia.
Qed.

Lemma round_half_even_nonneg (n k : Z) : 0 <= n -> 0 <= k -> 0 <= round_half_even n k.
Proof.
  intros Hn Hk. unfold round_half_even.
  pose proof (pow10_pos k Hk).
  assert (0 <= n / 10 ^ k) by (apply Z.div_pos; lia).
  repeat case_match; lia.
Qed.

Lemma round_half_even_exact (q k : Z) : 0 <= k -> round_half_even (q * 10 ^ k) k = q.
Proof.
  intros Hk. unfold round_half_even.
  pose proof (pow10_pos k Hk).
  rewrite Z.div_mul, Z.mod_mul by lia.
  destruct (Z.ltb_spec (2 * 0) (10 ^ k)); [done|lia].
Qed.

Lemma Decimal_fix_fits (d : Decimal) : fits d -> Decimal_fix d = d.
Proof.
  unfold fits, Decimal_fix. intros Hd.
  destruct (Z.leb_spec (ndigits (Z.abs (coefficient d)) - prec) 0); [done|lia].
Qed.

Lemma Decimal_fix_nonneg (d : Decimal) :
  0 <= coefficient d -> 0 <= coefficient (Decimal_fix d).
Proof.
  intros Hd. unfold Decimal_fix.
  destruct (Z.leb_spec (ndigits (Z.abs (coefficient d)) - prec) 0) as [|Hk]; [done|].
  pose proof (round_half_even_nonneg (Z.abs (coefficient d))
                (ndigits (Z.abs (coefficient d)) - prec) ltac:(lia) ltac:(lia)).
  pose proof (pow10_pos (prec - 1) ltac:(unfold prec; lia)).
  case_match; simpl; nia.
Qed.

Lemma Decimal_fix_nonpos (d : Decimal) :
  coefficient d <= 0 -> coefficient (Decimal_fix d) <= 0.
Proof.
  intros Hd. unfold Decimal_fix.
  destruct (Z.leb_spec (ndigits (Z.abs (coefficient d)) - prec) 0) as [|Hk]; [done|].
  pose proof (round_half_even_nonneg (Z.abs (coefficient d))
                (ndigits (Z.abs (coefficient d)) - prec) ltac:(lia) ltac:(lia)).
  pose proof (pow10_pos (prec - 1) ltac:(unfold prec; lia)).
  case_match; simpl; nia.
Qed.

Lemma Zcompare_mul_pos_r (n m p : Z) : 0 < p -> (n * p ?= m * p) = (n ?= m).
Proof.
  intros Hp. destruct (Z.compare_spec n m) as [->|Hlt|Hgt].
  - apply Z.compare_refl.
  - apply Z.compare_lt_iff. nia.
  - apply Z.compare_gt_iff. nia.
Qed.

Lemma scaled_shift (d : Decimal) (e e' : Z) :
  e' <= e <= exponent d -> scaled e' d = scaled e d * 10 ^ (e - e').
Proof.
  intros He. unfold scaled.
  replace (exponent d - e') with ((exponent d - e) + (e - e')) by lia.
  rewrite pow10_add by lia. ring.
Qed.

Lemma scaled_self (d : Decimal) : scaled (exponent d) d = coefficient d.
Proof. unfold scaled. rewrite Z.sub_diag. simpl. lia. Qed.

Lemma scaled_mk (c e : Z) : scaled e (mkDecimal c e) = c.
Proof. apply (scaled_self (mkDecimal c e)). Qed.

Lemma Decimal_cmp_scaled (a b : Decimal) (e : Z) :
  e <= exponent a -> e <= exponent b ->
  Decimal_cmp a b = (scaled e a ?= scaled e b).
Proof.
  intros Ha Hb. unfold Decimal_cmp.
  set (m := Z.min (exponent a) (exponent b)).
  rewrite (scaled_shift a m e), (scaled_shift b m e) by lia.
  symmetry. apply Zcompare_mul_pos_r, pow10_pos. lia.
Qed.

Lemma Decimal_eq_scaled (a b : Decimal) (e : Z) :
  e <= exponent a -> e <= exponent b ->
  Decimal_eq a b <-> scaled e a = scaled e b.
Proof.
  intros Ha Hb. unfold Decimal_eq.
  rewrite (Decimal_cmp_scaled a b e) by done. apply Z.compare_eq_iff.
Qed.

Lemma Decimal_lt_scaled (a b : Decimal) (e : Z) :
  e <= exponent a -> e <= exponent b ->
  Decimal_lt a b <-> scaled e a < scaled e b.
Proof.
  intros Ha Hb. unfold Decimal_lt.
  rewrite (Decimal_cmp_scaled a b e) by done. apply Z.compare_lt_iff.
Qed.

Lemma Decimal_le_scaled (a b : Decimal) (e : Z) :
  e <= exponent a -> e <= exponent b ->
  Decimal_le a b <-> scaled e a <= scaled e b.
Proof.
  intros Ha Hb. unfold Decimal_le.
  rewrite (Decimal_cmp_scaled a b e) by done. apply Z.compare_le_iff.
Qed.

Lemma Decimal_ltb_lt (a b : Decimal) : (a <? b)%D = true <-> Decimal_lt a b.
Proof. unfold Decimal_ltb, Decimal_lt. destruct (Decimal_cmp a b); naive_solver. Qed.

Lemma Decimal_ltb_ge (a b : Decimal) : (a <? b)%D = false <-> Decimal_le b a.
Proof.
  unfold Decimal_ltb, Decimal_le.
  rewrite (Decimal_cmp_scaled a b (Z.min (exponent a) (exponent b))) by lia.
  rewrite (Decimal_cmp_scaled b a (Z.min (exponent a) (exponent b))) by lia.
  rewrite (Z.compare_antisym (scaled _ a) (scaled _ b)).
  destruct (scaled _ a ?= scaled _ b); simpl; naive_solver.
Qed.

Lemma Decimal_eqb_eq (a b : Decimal) : (a =? b)%D = true <-> Decimal_eq a b.
Proof. unfold Decimal_eqb, Decimal_eq. destruct (Decimal_cmp a b); naive_solver. Qed.

Lemma Decimal_eq_refl (a : Decimal) : Decimal_eq a a.
Proof. apply (Decimal_eq_scaled a a (exponent a)); lia. Qed.

Lemma Decimal_eq_sym (a b : Decimal) : Decimal_eq a b -> Decimal_eq b a.
Proof.
  intros Hab. set (e := Z.min (exponent a) (exponent b)).
  apply (Decimal_eq_scaled b a e); [lia..|].
  symmetry. apply (Decimal_eq_scaled a b e); [lia..|done].
Qed.

Lemma Decimal_eq_trans (a b c : Decimal) :
  Decimal_eq a b -> Decimal_eq b c -> Decimal_eq a c.
Proof.
  intros Hab Hbc.
  set (e := Z.min (exponent a) (Z.min (exponent b) (exponent c))).
  apply (Decimal_eq_scaled a c e); [lia..|].
  transitivity (scaled e b).
  - apply (Decimal_eq_scaled a b e); [lia..|done].
  - apply (Decimal_eq_scaled b c e); [lia..|done].
Qed.

(** [0 <= d], as the constructor tests it, is a non-negative coefficient. *)
Lemma Decimal_nonneg_coefficient (d : Decimal) :
  Decimal_le (Decimal_of_int 0) d <-> 0 <= coefficient d.
Proof.
  rewrite (Decimal_le_scaled _ d (Z.min 0 (exponent d))) by (simpl; lia).
  unfold scaled. simpl.
  pose proof (pow10_pos (exponent d - Z.min 0 (exponent d)) ltac:(lia)). nia.
Qed.

Lemma Decimal_fix_exponent (d : Decimal) : exponent d <= exponent (Decimal_fix d).
Proof.
  unfold Decimal_fix.
  destruct (Z.leb_spec (ndigits (Z.abs (coefficient d)) - prec) 0); [lia|].
  case_match; simpl; lia.
Qed.

(** Rounding leaves a coefficient that is a short one padded with zeros at
    its value. *)
Lemma Decimal_fix_padded (c j e : Z) :
  ndigits (Z.abs c) <= prec -> 0 <= j ->
  scaled e (Decimal_fix (mkDecimal (c * 10 ^ j) e)) = c * 10 ^ j.
Proof.
  intros Hc Hj. unfold Decimal_fix. cbn [coefficient exponent].
  pose proof (pow10_pos j Hj) as Hpj.
  set (n := Z.abs (c * 10 ^ j)).
  destruct (Z.leb_spec (ndigits n - prec) 0) as [|Hk]; [apply scaled_mk|].
  assert (Hn : n = Z.abs c * 10 ^ j) by (unfold n; rewrite Z.abs_mul; lia).
  assert (Hc0 : 0 < Z.abs c).
  { destruct (Z.eq_dec c 0) as [->|]; [|lia].
    unfold n in Hk. rewrite Z.mul_0_l in Hk.
    change (ndigits (Z.abs 0)) with 1 in Hk. unfold prec in Hk. lia. }
  assert (Hnd : ndigits n = ndigits (Z.abs c) + j) by (rewrite Hn; apply ndigits_pad; lia).
  assert (Hk' : ndigits n - prec = ndigits (Z.abs c) + j - prec) by lia.
  assert (Hnx : n = Z.abs (c * 10 ^ j)) by done.
  clearbody n. subst n. rewrite Hk' in *. clear Hk' Hnd.
  set (k := ndigits (Z.abs c) + j - prec) in *.
  assert (Hsplit : Z.abs c * 10 ^ j = (Z.abs c * 10 ^ (j - k)) * 10 ^ k).
  { rewrite <- Z.mul_assoc, <- pow10_add by lia. do 2 f_equal. lia. }
  rewrite Hsplit. rewrite round_half_even_exact by lia.
  assert (Hq : Z.abs c * 10 ^ (j - k) < 10 ^ prec).
  { destruct (ndigits_spec (Z.abs c * 10 ^ (j - k))) as (_ & _ & Hlt).
    - pose proof (pow10_pos (j - k) ltac:(lia)). nia.
    - rewrite ndigits_pad in Hlt by lia.
      replace (ndigits (Z.abs c) + (j - k)) with prec in Hlt by lia. done. }
  destruct (Z.eqb_spec (Z.abs c * 10 ^ (j - k)) (10 ^ prec)) as [|_]; [lia|].
  unfold scaled. cbn [coefficient exponent].
  replace (e + k - e) with k by lia.
  rewrite <- Z.mul_assoc, <- Hsplit, Hnx. lia.
Qed.

(** A value that some decimal within the precision has is left at that
    value by rounding. *)
Lemma Decimal_fix_representable (x d : Decimal) :
  fits d -> Decimal_eq x d -> Decimal_eq (Decimal_fix x) x.
Proof.
  intros Hd Hxd. destruct x as [X e], d as [c e']. unfold fits in Hd. simpl in Hd.
  destruct (Z.le_gt_cases e' e) as [Hle|Hgt].
  - (* the short form has the smaller exponent: x is no longer than d *)
    rewrite (Decimal_eq_scaled _ _ e') in Hxd by (simpl; lia).
    rewrite scaled_mk in Hxd. unfold scaled in Hxd. simpl in Hxd.
    rewrite Decimal_fix_fits; [apply Decimal_eq_refl|].
    unfold fits. simpl.
    pose proof (pow10_pos (e - e') ltac:(lia)).
    assert (Z.abs X <= Z.abs c) by nia.
    destruct (Z.eq_dec c 0) as [->|Hc].
    + replace (Z.abs X) with 0 by lia. done.
    + destruct (ndigits_spec (Z.abs c)) as (? & _ & ?); [lia|].
      pose proof (pow10_le (ndigits (Z.abs c)) prec ltac:(lia)).
      apply ndigits_bound; unfold prec in *; lia.
  - rewrite (Decimal_eq_scaled _ _ e) in Hxd by (simpl; lia).
    rewrite scaled_mk in Hxd. unfold scaled in Hxd. simpl in Hxd. subst X.
    pose proof (Decimal_fix_exponent (mkDecimal (c * 10 ^ (e' - e)) e)) as Hexp.
    apply (Decimal_eq_scaled _ _ e); [done|simpl; lia|].
    rewrite Decimal_fix_padded by lia. by rewrite scaled_mk.
Qed.

Lemma scaled_neg (e : Z) (b : Decimal) : scaled e (Decimal_neg b) = - scaled e b.
Proof. unfold scaled, Decimal_neg. simpl. lia. Qed.

Lemma scaled_sign (e : Z) (d : Decimal) :
  e <= exponent d -> (0 <= scaled e d <-> 0 <= coefficient d).
Proof.
  intros He. unfold scaled. pose proof (pow10_pos (exponent d - e) ltac:(lia)). nia.
Qed.

Lemma Decimal_add_nonneg (a b : Decimal) :
  0 <= coefficient a -> 0 <= coefficient b -> 0 <= coefficient (a + b).
Proof.
  intros Ha Hb. apply Decimal_fix_nonneg. simpl.
  pose proof (proj2 (scaled_sign (Z.min (exponent a) (exponent b)) a ltac:(lia)) Ha).
  pose proof (proj2 (scaled_sign (Z.min (exponent a) (exponent b)) b ltac:(lia)) Hb).
  lia.
Qed.

Lemma Decimal_mul_nonneg (a b : Decimal) :
  0 <= coefficient a -> 0 <= coefficient b -> 0 <= coefficient (a * b).
Proof. intros Ha Hb. apply Decimal_fix_nonneg. simpl. nia. Qed.

(** What the guard of [buy] leaves: a difference that is not negative. *)
Lemma Decimal_sub_nonneg (a b : Decimal) :
  (a <? b)%D = false -> 0 <= coefficient (a - b).
Proof.
  intros Hab. apply Decimal_ltb_ge in Hab.
  apply (Decimal_le_scaled b a (Z.min (exponent a) (exponent b))) in Hab; [|lia..].
  apply Decimal_fix_nonneg. simpl. rewrite scaled_neg. lia.
Qed.

(** ** Attribute lookup *)

Lemma field_lookup_Some fs name get :
  field_lookup fs name = Some get -> (name, get) ∈ fs.
Proof.
  induction fs as [|[f g] fs IH]; simpl; [done|].
  destruct (String.eqb_spec name f) as [->|Hne].
  - intros [= ->]. left.
  - intros Hl. right. auto.
Qed.

Lemma field_lookup_None fs name :
  field_lookup fs name = None <-> name ∉ fs.*1.
Proof.
  induction fs as [|[f g] fs IH]; simpl.
  - split; [intros _; apply not_elem_of_nil|done].
  - destruct (String.eqb_spec name f) as [->|Hne].
    + split; [done|]. intros Hn. destruct Hn. left.
    + rewrite IH, not_elem_of_cons. tauto.
Qed.

Lemma getattr_Price_field prices name d :
  getattr prices name = Price d ->
  exists get, (name, get) ∈ dataclass_fields /\ d = get prices.
Proof.
  unfold getattr. destruct (field_lookup dataclass_fields name) as [get|] eqn:Hl.
  - intros [= <-]. exists get. split; [by apply field_lookup_Some|done].
  - by case_match.
Qed.

(** The tracked symbols are exactly the names whose attribute is a price. *)
Lemma getattr_tracked prices name :
  name ∈ field_names <-> exists d, getattr prices name = Price d.
Proof.
  unfold getattr, field_names.
  destruct (field_lookup dataclass_fields name) as [get|] eqn:Hl.
  - apply field_lookup_Some in Hl. split; [eauto|]. intros _.
    apply list_elem_of_fmap. by exists (name, get).
  - pose proof (proj1 (field_lookup_None _ _) Hl). split; [done|].
    intros [d Hd]. by case_match.
Qed.

Lemma nonneg_prices_getattr prices name d :
  nonneg_prices prices -> getattr prices name = Price d -> 0 <= coefficient d.
Proof.
  intros Hp Hg. apply getattr_Price_field in Hg as (get & Hin & ->).
  unfold nonneg_prices in Hp. rewrite Forall_forall in Hp.
  apply Decimal_nonneg_coefficient. apply (Hp (name, get)). done.
Qed.

(** ** The holdings dictionary *)

Lemma defaultdict_getitem_value d key :
  (defaultdict_getitem d key).1 = default 0 (d !! key).
Proof. unfold defaultdict_getitem. by destruct (d !! key). Qed.

Lemma defaultdict_getitem_lookup d key k :
  (defaultdict_getitem d key).2 !! k =
  match d !! k with
  | Some v => Some v
  | None => if decide (k = key) then Some 0 else None
  end.
Proof.
  unfold defaultdict_getitem. destruct (d !! key) eqn:Hkey; simpl.
  - destruct (d !! k) eqn:Hk; [done|]. case_decide; [congruence|done].
  - rewrite lookup_insert. case_decide; subst.
    + rewrite Hkey. by rewrite decide_True.
    + destruct (d !! k); [done|]. by rewrite decide_False.
Qed.

Lemma asset_values_loop_lookup fs prices a k :
  (asset_values_loop fs prices a).2 !! k =
  match a !! k with
  | Some v => Some v
  | None => if decide (k ∈ fs.*1) then Some 0 else None
  end.
Proof.
  revert a. induction fs as [|[asset get] fs IH]; intros a; simpl.
  - by destruct (a !! k).
  - destruct (defaultdict_getitem a asset) as [quantity a1] eqn:Hg.
    specialize (IH a1).
    destruct (asset_values_loop fs prices a1) as [rest a2] eqn:Hl. simpl in IH.
    assert ((if quantity =? 0 then (rest, a2)
             else ((asset, quantity, (get prices * Decimal_of_int quantity)%D) :: rest, a2)).2
            = a2) as -> by (destruct (quantity =? 0); reflexivity).
    rewrite IH.
    pose proof (defaultdict_getitem_lookup a asset k) as Hk. rewrite Hg in Hk. simpl in Hk.
    rewrite Hk. destruct (a !! k); [done|].
    repeat case_decide; try done; rewrite ?elem_of_cons in *; simpl in *; tauto.
Qed.

Lemma asset_values_loop_empty fs prices a :
  (forall k, default 0 (a !! k) = 0) -> (asset_values_loop fs prices a).1 = [].
Proof.
  revert a. induction fs as [|[asset get] fs IH]; intros a Ha; simpl; [done|].
  destruct (defaultdict_getitem a asset) as [quantity a1] eqn:Hg.
  assert (quantity = 0) as ->.
  { pose proof (defaultdict_getitem_value a asset) as Hv. rewrite Hg in Hv. simpl in Hv.
    rewrite Hv. apply Ha. }
  assert (Ha1 : forall k, default 0 (a1 !! k) = 0).
  { intros k. pose proof (defaultdict_getitem_lookup a asset k) as Hk.
    rewrite Hg in Hk. simpl in Hk. rewrite Hk. specialize (Ha k).
    destruct (a !! k); [done|]. by case_decide. }
  specialize (IH a1 Ha1). destruct (asset_values_loop fs prices a1). simpl in *. done.
Qed.

(* ===================================================================== *)
(** * Facts about the simulator                                           *)
(* ===================================================================== *)

Section simulator_facts.
Context {I : Type} `{Iterator I}.
Implicit Types s : PortfolioSimulator I.

Lemma yields_only_next P (it : I) : yields_only P it -> yields_only P (next it).2.
Proof. intros Hit n d p it' Hn. by apply (Hit (S n) d p it'). Qed.

Lemma yields_only_head P (it it' : I) d p :
  yields_only P it -> next it = (Return (d, p), it') -> P p.
Proof. intros Hit Hn. by apply (Hit O d p it'). Qed.

Lemma defaultdict_getitem_nonneg (a : gmap string Z) key :
  map_Forall (fun _ q => 0 <= q) a ->
  0 <= (defaultdict_getitem a key).1 /\
  map_Forall (fun _ q => 0 <= q) (defaultdict_getitem a key).2.
Proof.
  intros Ha. unfold defaultdict_getitem. destruct (a !! key) as [v|] eqn:Hk; simpl.
  - split; [by apply (Ha key)|done].
  - split; [lia|]. by apply map_Forall_insert_2.
Qed.

Lemma asset_values_loop_nonneg fs prices (a : gmap string Z) :
  map_Forall (fun _ q => 0 <= q) a ->
  map_Forall (fun _ q => 0 <= q) (asset_values_loop fs prices a).2.
Proof.
  intros Ha k v. rewrite asset_values_loop_lookup.
  destruct (a !! k) as [w|] eqn:Hk.
  - intros [= <-]. by apply (Ha k).
  - case_decide; [|done]. intros [= <-]. lia.
Qed.

(** Reading the valuation leaves the holdings, key set apart, as they
    are. *)
Lemma profit_state s : (profit s).2 = (asset_values s).2.
Proof.
  unfold profit, value. destruct (asset_values s) as [vs s']. reflexivity.
Qed.

Lemma value_state s : (value s).2 = (asset_values s).2.
Proof. unfold value. destruct (asset_values s) as [vs s']. reflexivity. Qed.

Lemma asset_values_state s :
  (asset_values s).2 =
  set_assets (asset_values_loop dataclass_fields (current_prices s) (assets s)).2 s.
Proof.
  unfold asset_values.
  destruct (asset_values_loop dataclass_fields (current_prices s) (assets s)). reflexivity.
Qed.

Lemma asset_values_holding s k : holding (asset_values s).2 k = holding s k.
Proof.
  rewrite asset_values_state. unfold holding, set_assets. cbn [assets].
  rewrite asset_values_loop_lookup. destruct (assets s !! k); [done|]. by case_decide.
Qed.

Lemma asset_values_tracks s : tracks s -> (asset_values s).2 = s.
Proof.
  intros Hs. rewrite asset_values_state. destruct s as [d c a n cd cp iv].
  unfold set_assets. cbn [assets current_prices days cash day_count current_date initial_value].
  f_equal. apply map_eq. intros k.
  rewrite asset_values_loop_lookup. destruct (a !! k) eqn:Hk; [done|].
  case_decide as Hin; [|done]. apply (Hs k) in Hin. simpl in Hin.
  rewrite Hk in Hin. by destruct Hin.
Qed.

(** ** The invariant *)

Lemma buy_sound asset amount s : 0 < amount -> sound s -> sound (buy asset amount s).2.
Proof.
  intros Hq [Hc Ha Hp Hd]. unfold buy.
  destruct (getattr (current_prices s) asset) as [price| |]; [|done..].
  destruct (cash s <? price * Decimal_of_int amount)%D eqn:Hlt; [done|].
  destruct (defaultdict_getitem_nonneg (assets s) asset Ha) as [Hv Ha'].
  simpl. destruct (defaultdict_getitem (assets s) asset) as [quantity a]. simpl in *.
  split; simpl; [|apply map_Forall_insert_2; [lia|done]|done..].
  apply Decimal_nonneg_coefficient. by apply Decimal_sub_nonneg.
Qed.

Lemma sell_sound asset amount s : 0 < amount -> sound s -> sound (sell asset amount s).2.
Proof.
  intros Hq [Hc Ha Hp Hd]. unfold sell.
  destruct (assets s !! asset) as [current_quantity|] eqn:Hk; [|done].
  destruct (Z.ltb_spec current_quantity amount); [done|].
  destruct (getattr (current_prices s) asset) as [price| |] eqn:Hg; [|done..].
  split; simpl; [|apply map_Forall_insert_2; [lia|done]|done..].
  apply Decimal_nonneg_coefficient. apply Decimal_add_nonneg.
  - by apply Decimal_nonneg_coefficient.
  - apply Decimal_mul_nonneg; [by eapply nonneg_prices_getattr|simpl; lia].
Qed.

Lemma next_day_sound s : sound s -> sound (next_day s).2.
Proof.
  intros [Hc Ha Hp Hd]. unfold next_day.
  pose proof (yields_only_next _ _ Hd) as Hd'. revert Hd'.
  destruct (next (days s)) as [[[d p]|e] it] eqn:Hn; simpl; intros Hd'.
  - split; simpl; try done. exact (yields_only_head nonneg_prices _ _ _ _ Hd Hn).
  - by split.
Qed.

Lemma summary_sound s : sound s -> sound (profit s).2.
Proof.
  intros [Hc Ha Hp Hd]. rewrite profit_state, asset_values_state.
  split; unfold set_assets; cbn [assets current_prices days cash]; [done| |done..].
  by apply asset_values_loop_nonneg.
Qed.

Lemma exec_sound c s : valid_command c -> sound s -> sound (exec c s).2.
Proof.
  destruct c as [asset amount|asset amount| |]; simpl.
  - intros [Hq _]. by apply buy_sound.
  - intros [Hq _]. by apply sell_sound.
  - intros _. apply next_day_sound.
  - intros _. apply summary_sound.
Qed.

Lemma run_commands_sound cs s :
  Forall valid_command cs -> sound s -> sound (run_commands cs s).
Proof.
  intros Hcs. revert s. induction Hcs as [|c cs Hc _ IH]; intros s Hs; [done|].
  apply IH. by apply exec_sound.
Qed.

Lemma init_sound (days0 : I) cash0 s :
  PortfolioSimulator_init days0 cash0 ∅ 0 = Return s ->
  yields_only nonneg_prices days0 -> sound s.
Proof.
  unfold PortfolioSimulator_init. intros Hinit Hd.
  destruct (cash0 <? Decimal_of_int 0)%D eqn:Hc; [done|].
  pose proof (yields_only_next _ _ Hd) as Hd'. revert Hd'.
  destruct (next days0) as [[[d p]|e] it] eqn:Hn; [|done]. simpl. intros Hd'.
  match type of Hinit with context [value ?s0] =>
    pose proof (value_state s0) as Hv; destruct (value s0) as [v s1] end.
  simpl in Hv. subst s1. injection Hinit as <-.
  rewrite asset_values_state.
  split; unfold set_initial_value, set_assets; cbn [assets current_prices days cash].
  - by apply Decimal_ltb_ge.
  - apply asset_values_loop_nonneg, map_Forall_empty.
  - exact (yields_only_head nonneg_prices _ _ _ _ Hd Hn).
  - done.
Qed.

End simulator_facts.

Section simulator_keys.
Context {I : Type} `{Iterator I}.
Implicit Types s : PortfolioSimulator I.

Lemma defaultdict_getitem_present (a : gmap string Z) key v :
  a !! key = Some v -> defaultdict_getitem a key = (v, a).
Proof. unfold defaultdict_getitem. by intros ->. Qed.

Lemma init_assets (days0 : I) cash0 s k :
  PortfolioSimulator_init days0 cash0 ∅ 0 = Return s ->
  assets s !! k = if decide (k ∈ field_names) then Some 0 else None.
Proof.
  unfold PortfolioSimulator_init. intros Hinit.
  destruct (cash0 <? Decimal_of_int 0)%D; [done|].
  destruct (next days0) as [[[d p]|e] it]; [|done].
  match type of Hinit with context [value ?s0] =>
    pose proof (value_state s0) as Hv; destruct (value s0) as [v s1] end.
  simpl in Hv. subst s1. injection Hinit as <-.
  rewrite asset_values_state. unfold set_initial_value, set_assets. cbn [assets].
  rewrite asset_values_loop_lookup, lookup_empty. reflexivity.
Qed.

Lemma init_tracks (days0 : I) cash0 s :
  PortfolioSimulator_init days0 cash0 ∅ 0 = Return s -> tracks s.
Proof.
  intros Hinit k. rewrite (init_assets _ _ _ k Hinit).
  case_decide as Hin.
  - split; [done|by eexists].
  - split; [by intros [? [=]]|done].
Qed.

Lemma buy_tracks asset amount s : tracks s -> tracks (buy asset amount s).2.
Proof.
  intros Hs. unfold buy.
  destruct (getattr (current_prices s) asset) as [price| |] eqn:Hg; [|done..].
  destruct (cash s <? price * Decimal_of_int amount)%D; [done|].
  assert (Hin : asset ∈ field_names) by (apply (getattr_tracked (current_prices s)); eauto).
  destruct (proj2 (Hs asset) Hin) as [v Hv].
  simpl. rewrite (defaultdict_getitem_present _ _ _ Hv).
  intros k. simpl. rewrite lookup_insert. case_decide; subst.
  - split; [done|by eexists].
  - apply Hs.
Qed.

Lemma sell_tracks asset amount s : tracks s -> tracks (sell asset amount s).2.
Proof.
  intros Hs. unfold sell.
  destruct (assets s !! asset) as [current_quantity|] eqn:Hk; [|done].
  destruct (current_quantity <? amount); [done|].
  destruct (getattr (current_prices s) asset) as [price| |] eqn:Hg; [|done..].
  intros k. simpl. rewrite lookup_insert. case_decide; subst.
  - split; [intros _; apply Hs; by eexists|by eexists].
  - apply Hs.
Qed.

Lemma next_day_tracks s : tracks s -> tracks (next_day s).2.
Proof. intros Hs. unfold next_day. by destruct (next (days s)) as [[[d p]|e] it]. Qed.

Lemma exec_tracks c s : tracks s -> tracks (exec c s).2.
Proof.
  intros Hs. destruct c as [asset amount|asset amount| |]; simpl.
  - by apply buy_tracks.
  - by apply sell_tracks.
  - by apply next_day_tracks.
  - by rewrite profit_state, asset_values_tracks.
Qed.

Lemma reachable_tracks s : reachable s -> tracks s.
Proof.
  induction 1 as [days0 cash0 s Hinit|c s _ IH].
  - by eapply init_tracks.
  - by apply exec_tracks.
Qed.

(** ** What a sale and a purchase do to the object *)

Lemma sell_raised asset amount s e s' :
  sell asset amount s = (Raised e, s') -> s' = s.
Proof.
  unfold sell. destruct (assets s !! asset) as [q|]; [|congruence].
  destruct (q <? amount); [congruence|].
  destruct (getattr (current_prices s) asset); congruence.
Qed.

Lemma buy_raised asset amount s e s' :
  buy asset amount s = (Raised e, s') -> s' = s.
Proof.
  unfold buy. destruct (getattr (current_prices s) asset); [|congruence..].
  destruct (_ <? _)%D; [congruence|].
  simpl. by destruct (defaultdict_getitem (assets s) asset).
Qed.

Lemma sell_done asset amount s quantity price :
  assets s !! asset = Some quantity -> amount <= quantity ->
  getattr (current_prices s) asset = Price price ->
  exists s', sell asset amount s = (Return tt, s') /\
    cash s' = (cash s + price * Decimal_of_int amount)%D /\
    holding s' asset = quantity - amount /\
    (forall other, other <> asset -> holding s' other = holding s other) /\
    same_day s s'.
Proof.
  intros Hk Hq Hg. unfold sell. rewrite Hk, Hg.
  destruct (Z.ltb_spec quantity amount); [lia|].
  eexists. split; [reflexivity|]. unfold holding, same_day. simpl.
  rewrite lookup_insert_eq. split_and!; try done.
  intros other Hne. by rewrite lookup_insert_ne.
Qed.

Lemma buy_done asset amount s price :
  getattr (current_prices s) asset = Price price ->
  (cash s <? price * Decimal_of_int amount)%D = false ->
  exists s', buy asset amount s = (Return tt, s') /\
    cash s' = (cash s - price * Decimal_of_int amount)%D /\
    holding s' asset = holding s asset + amount /\
    (forall other, other <> asset -> holding s' other = holding s other) /\
    same_day s s'.
Proof.
  intros Hg Hc. unfold buy. rewrite Hg, Hc. simpl.
  pose proof (defaultdict_getitem_value (assets s) asset) as Hv.
  pose proof (defaultdict_getitem_lookup (assets s) asset) as Hl.
  destruct (defaultdict_getitem (assets s) asset) as [quantity a]. simpl in Hv, Hl.
  eexists. split; [reflexivity|]. unfold holding, same_day. simpl.
  rewrite lookup_insert_eq. split_and!; try done.
  - simpl. by rewrite Hv.
  - intros other Hne. rewrite lookup_insert_ne, Hl by done.
    destruct (assets s !! other); [done|]. by rewrite decide_False.
Qed.

End simulator_keys.

Lemma list_yields_only (P : AssetPrice -> Prop) (l : list (date * AssetPrice)) :
  Forall (fun x => P x.2) l -> yields_only P l.
Proof.
  intros Hl n. revert l Hl. induction n as [|n IH]; intros l Hl d p it'.
  - destruct Hl as [|[d0 p0] l Hp Hl]; simpl; [done|]. by intros [= _ <- _].
  - destruct Hl as [|[d0 p0] l Hp Hl]; simpl.
    + by apply (IH [] (Forall_nil_2 _)).
    + by apply IH.
Qed.

Lemma nonneg_prices_base_with_BTC (price : Z) :
  0 <= price -> nonneg_prices (base_with_BTC price).
Proof.
  intros Hp. unfold nonneg_prices, dataclass_fields.
  repeat apply Forall_cons_2; try apply Forall_nil_2; simpl;
    try (by vm_compute).
  by apply Decimal_nonneg_coefficient.
Qed.

Lemma nonneg_prices_base : nonneg_prices base_asset_price.
Proof. unfold nonneg_prices, dataclass_fields. repeat constructor; by vm_compute. Qed.

(* ===================================================================== *)
(** * The claims                                                          *)
(* ===================================================================== *)




Section operations.
Context {I : Type} `{Iterator I}.
Implicit Types s : PortfolioSimulator I.



End operations.




(** C5.  The end-to-end scenario: from 100000 in cash and BTC at 20000 on
    day 1, buying 2 BTC leaves 60000 and a holding of 2; after the advance
    to day 2, with BTC at 25000, selling 1 leaves 85000 and a holding of 1;
    the value is then 110000 and the profit 10000.  The other prices and
    whatever follows day 2 do not matter. *)
Theorem end_to_end_scenario (p1 p2 : AssetPrice) (d1 d2 : date)
    (rest : list (date * AssetPrice)) :
  BTC p1 = Decimal_of_int 20000 -> BTC p2 = Decimal_of_int 25000 ->
  exists s0 s1 s2 s3 : PortfolioSimulator (list (date * AssetPrice)),
    create ((d1, p1) :: (d2, p2) :: rest) (Decimal_of_int 100000) = Return s0 /\
    buy "BTC" 2 s0 = (Return tt, s1) /\
    cash s1 = Decimal_of_int 60000 /\ holding s1 "BTC" = 2 /\
    next_day s1 = (Return tt, s2) /\
    day_count s2 = 2 /\ current_prices s2 = p2 /\
    sell "BTC" 1 s2 = (Return tt, s3) /\
    cash s3 = Decimal_of_int 85000 /\ holding s3 "BTC" = 1 /\
    (value s3).1 = Decimal_of_int 110000 /\
    (profit s3).1 = Decimal_of_int 10000.
Proof.
  destruct p1 as [btc1 ? ? ? ? ? ?], p2 as [btc2 ? ? ? ? ? ?]. simpl.
  intros -> ->.
  do 4 eexists.
  split; [vm_compute; reflexivity|].
  split; [vm_compute; reflexivity|].
  split; [reflexivity|]. split; [vm_compute; reflexivity|].
  split; [vm_compute; reflexivity|].
  split; [reflexivity|]. split; [reflexivity|].
  split; [vm_compute; reflexivity|].
  split; [reflexivity|]. split; [vm_compute; reflexivity|].
  split; vm_compute; reflexivity.
Qed.

Lemma end_to_end_scenario_witness :
  BTC (base_with_BTC 20000) = Decimal_of_int 20000 /\
  BTC (base_with_BTC 25000) = Decimal_of_int 25000 /\
  exists s0 s1 s2 s3 : PortfolioSimulator (list (date * AssetPrice)),
    create two_days (Decimal_of_int 100000) = Return s0 /\
    buy "BTC" 2 s0 = (Return tt, s1) /\
    cash s1 = Decimal_of_int 60000 /\ holding s1 "BTC" = 2 /\
    next_day s1 = (Return tt, s2) /\
    day_count s2 = 2 /\ current_prices s2 = base_with_BTC 25000 /\
    sell "BTC" 1 s2 = (Return tt, s3) /\
    cash s3 = Decimal_of_int 85000 /\ holding s3 "BTC" = 1 /\
    (value s3).1 = Decimal_of_int 110000 /\
    (profit s3).1 = Decimal_of_int 10000.
Proof.
  split; [reflexivity|]. split; [reflexivity|].
  exact (end_to_end_scenario (base_with_BTC 20000) (base_with_BTC 25000)
           example_date (example_date + 1) [] eq_refl eq_refl).
Defined.

(** Adding the [int] 0 keeps the value of a decimal within the precision. *)
Lemma Decimal_add_zero (a : Decimal) :
  fits a -> Decimal_eq (a + Decimal_of_int 0)%D a.
Proof.
  intros Ha. unfold Decimal_add.
  set (e := Z.min (exponent a) (exponent (Decimal_of_int 0))).
  set (x := mkDecimal (scaled e a + scaled e (Decimal_of_int 0)) e).
  assert (Hx : Decimal_eq x a).
  { apply (Decimal_eq_scaled x a e); [simpl; lia|lia|].
    unfold x. rewrite scaled_mk. unfold scaled at 2. simpl. lia. }
  eapply Decimal_eq_trans; [|exact Hx]. by apply (Decimal_fix_representable x a).
Qed.

(** A successful construction: what the object holds right after. *)
Lemma create_returns {H} `{AssetPriceHistory H} (history : H) (cash0 : Decimal)
    (d : date) (p : AssetPrice) (it : iterator) :
  Decimal_le (Decimal_of_int 0) cash0 ->
  next (iter history) = (Return (d, p), it) ->
  exists s, create history cash0 = Return s /\
    days s = it /\ current_date s = d /\ current_prices s = p /\
    day_count s = 1 /\ cash s = cash0 /\
    (forall asset, holding s asset = 0) /\
    initial_value s = (cash0 + Decimal_of_int 0)%D.
Proof.
  unfold create, PortfolioSimulator_init.
  intros Hle Hnext. apply Decimal_ltb_ge in Hle. rewrite Hle, Hnext.
  match goal with |- context [value ?s0] => set (s := s0) end.
  assert (Hvs : (asset_values s).1 = []).
  { unfold asset_values.
    pose proof (asset_values_loop_empty dataclass_fields p ∅) as Hl.
    destruct (asset_values_loop dataclass_fields (current_prices s) (assets s))
      as [vs a] eqn:Hloop. simpl in Hl, Hloop. rewrite Hloop in Hl. apply Hl.
    intros k. by rewrite lookup_empty. }
  pose proof (asset_values_holding s) as Hh.
  pose proof (asset_values_state s) as Hst.
  unfold value. destruct (asset_values s) as [vs s1]. simpl in Hvs, Hh, Hst.
  subst vs. eexists. split; [reflexivity|].
  rewrite Hst. unfold set_initial_value, set_assets. simpl.
  split_and!; try reflexivity.
  intros asset. specialize (Hh asset). rewrite Hst in Hh.
  unfold holding in Hh |- *. simpl in Hh |- *. rewrite Hh. by rewrite lookup_empty.
Qed.






Lemma round_half_even_lower (n k : Z) : 0 <= k -> n / 10 ^ k <= round_half_even n k.
Proof. intros Hk. unfold round_half_even. repeat case_match; lia. Qed.

(** Rounding never turns a number into zero. *)
Lemma Decimal_fix_sgn (d : Decimal) :
  Z.sgn (coefficient (Decimal_fix d)) = Z.sgn (coefficient d).
Proof.
  unfold Decimal_fix. set (n := Z.abs (coefficient d)).
  destruct (Z.leb_spec (ndigits n - prec) 0) as [|Hk]; [done|].
  assert (Hn : 0 < n).
  { destruct (Z.eq_dec n 0) as [Hz|]; [|lia]. rewrite Hz in Hk.
    change (ndigits 0) with 1 in Hk. unfold prec in Hk. lia. }
  destruct (ndigits_spec n Hn) as (_ & Hlow & _).
  set (k := ndigits n - prec) in *.
  assert (Hq : 10 ^ (prec - 1) <= n / 10 ^ k).
  { apply Z.div_le_lower_bound; [apply pow10_pos; lia|].
    rewrite <- pow10_add by (unfold prec; lia).
    replace (k + (prec - 1)) with (ndigits n - 1) by lia. done. }
  pose proof (round_half_even_lower n k ltac:(lia)).
  pose proof (pow10_pos (prec - 1) ltac:(unfold prec; lia)).
  case_match; simpl; rewrite Z.sgn_mul.
  - rewrite (Z.sgn_pos (10 ^ (prec - 1))) by lia. lia.
  - rewrite (Z.sgn_pos (round_half_even n k)) by lia. lia.
Qed.

Lemma Decimal_pos_coefficient (d : Decimal) :
  Decimal_lt (Decimal_of_int 0) d <-> 0 < coefficient d.
Proof.
  rewrite (Decimal_lt_scaled _ d (Z.min 0 (exponent d))) by (simpl; lia).
  unfold scaled. simpl.
  pose proof (pow10_pos (exponent d - Z.min 0 (exponent d)) ltac:(lia)). nia.
Qed.

(** The cost of a negative quantity at a positive price is negative. *)
Lemma Decimal_mul_neg (price : Decimal) (amount : Z) :
  0 < coefficient price -> amount < 0 ->
  coefficient (price * Decimal_of_int amount) < 0.
Proof.
  intros Hp Hq.
  pose proof (Decimal_fix_sgn (mkDecimal (coefficient price * amount) (exponent price + 0))) as Hs.
  simpl in Hs. rewrite (Z.sgn_neg (coefficient price * amount)) in Hs by nia.
  unfold Decimal_mul. simpl. lia.
Qed.

Lemma Decimal_mul_nonpos (price : Decimal) (amount : Z) :
  0 <= coefficient price -> amount <= 0 ->
  coefficient (price * Decimal_of_int amount) <= 0.
Proof. intros Hp Hq. apply Decimal_fix_nonpos. simpl. nia. Qed.

Lemma Decimal_add_exponent (a b : Decimal) :
  Z.min (exponent a) (exponent b) <= exponent (a + b).
Proof.
  unfold Decimal_add.
  pose proof (Decimal_fix_exponent
    (mkDecimal (scaled (Z.min (exponent a) (exponent b)) a +
                scaled (Z.min (exponent a) (exponent b)) b)
       (Z.min (exponent a) (exponent b)))) as He.
  exact He.
Qed.

(** An exact sum with a negative number is smaller, with a positive one
    larger. *)
Lemma exact_add_neg (a b : Decimal) :
  exact_add a b -> coefficient b < 0 -> Decimal_lt (a + b) a.
Proof.
  unfold exact_add. intros Hex Hb.
  set (e := Z.min (exponent a) (exponent b)) in *.
  pose proof (Decimal_add_exponent a b).
  apply (Decimal_lt_scaled _ _ e); [lia..|]. rewrite Hex.
  assert (scaled e b < 0); [|lia].
  unfold scaled. pose proof (pow10_pos (exponent b - e) ltac:(lia)). nia.
Qed.

Lemma exact_add_pos (a b : Decimal) :
  exact_add a b -> 0 < coefficient b -> Decimal_lt a (a + b).
Proof.
  unfold exact_add. intros Hex Hb.
  set (e := Z.min (exponent a) (exponent b)) in *.
  pose proof (Decimal_add_exponent a b).
  apply (Decimal_lt_scaled _ _ e); [lia..|]. rewrite Hex.
  assert (0 < scaled e b); [|lia].
  unfold scaled. pose proof (pow10_pos (exponent b - e) ltac:(lia)). nia.
Qed.

(** Taking [b] off exactly and adding it again gives the value of [a] back,
    if [a] has no more digits than the context keeps. *)
Lemma Decimal_sub_add (a b : Decimal) :
  fits a -> exact_add a (Decimal_neg b) -> Decimal_eq ((a - b) + b) a.
Proof.
  intros Ha Hex. unfold exact_add in Hex. fold (Decimal_sub a b) in Hex.
  simpl in Hex. rewrite scaled_neg in Hex.
  set (m := Z.min (exponent a) (exponent b)) in *.
  pose proof (Decimal_add_exponent a (Decimal_neg b)) as Hm.
  fold (Decimal_sub a b) in Hm. simpl in Hm. fold m in Hm.
  unfold Decimal_add at 1.
  set (e := Z.min (exponent (a - b)) (exponent b)).
  set (x := mkDecimal (scaled e (a - b) + scaled e b) e).
  assert (Hx : Decimal_eq x a).
  { apply (Decimal_eq_scaled x a m); [simpl; lia|lia|].
    rewrite (scaled_shift x e m) by (simpl; lia).
    unfold x. rewrite scaled_mk, Z.mul_add_distr_r.
    rewrite <- (scaled_shift (a - b) e m), <- (scaled_shift b e m) by lia. lia. }
  eapply Decimal_eq_trans; [|exact Hx]. by apply (Decimal_fix_representable x a).
Qed.

Section round_trip.
Context {I : Type}.
Implicit Types s : PortfolioSimulator I.

Lemma buy_done_key asset amount s price :
  getattr (current_prices s) asset = Price price ->
  (cash s <? price * Decimal_of_int amount)%D = false ->
  exists s', buy asset amount s = (Return tt, s') /\
    cash s' = (cash s - price * Decimal_of_int amount)%D /\
    assets s' !! asset = Some (holding s asset + amount) /\
    (forall other, other <> asset -> holding s' other = holding s other) /\
    same_day s s'.
Proof.
  intros Hg Hc. unfold buy. rewrite Hg, Hc. simpl.
  pose proof (defaultdict_getitem_value (assets s) asset) as Hv.
  pose proof (defaultdict_getitem_lookup (assets s) asset) as Hl.
  destruct (defaultdict_getitem (assets s) asset) as [quantity a]. simpl in Hv, Hl.
  eexists. split; [reflexivity|]. unfold holding, same_day. simpl.
  rewrite lookup_insert_eq. split_and!; try done.
  - by rewrite Hv.
  - intros other Hne. rewrite lookup_insert_ne, Hl by done.
    destruct (assets s !! other); [done|]. by rewrite decide_False.
Qed.



End round_trip.





(* ===================================================================== *)
(** * Facts about the random walk                                         *)
(* ===================================================================== *)

Lemma nth_next_after {I} `{Iterator I} (n : nat) (it : I) :
  nth_next n it = next (after n it).
Proof. revert it. induction n as [|n IH]; intros it; simpl; [done|apply IH]. Qed.

Lemma date_add_days_in_range (d n : Z) :
  valid_date d -> 0 <= n -> d + n <= MAXORDINAL -> date_add_days d n = Some (d + n).
Proof.
  unfold valid_date, date_add_days, MAXORDINAL. intros Hd Hn Hmax.
  destruct (Z.leb_spec (Z.abs n) 999999999); [|lia].
  destruct (Z.leb_spec 1 (d + n)); [|lia].
  destruct (Z.leb_spec (d + n) 3652059); [done|lia].
Qed.

Lemma date_add_days_past_range (d n : Z) :
  MAXORDINAL < d + n -> date_add_days d n = None.
Proof.
  unfold date_add_days. intros Hmax.
  destruct (Z.leb_spec (d + n) MAXORDINAL); [lia|].
  by rewrite andb_false_r.
Qed.

Section random_walk_facts.
Context `{PyRandom}.
Implicit Types (g : generator) (σ : gmap nat Random).

(** The seven draws of one step, one after the other from the state the
    history owns, which is left at the state after the seventh. *)
Lemma next_asset_price_draws (h : RandomAssetPriceHistory) (previous : AssetPrice) σ :
  exists m1 m2 m3 m4 m5 m6 m7,
    multipliers 7 (price_multiplier h).1 (price_multiplier h).2 (σ !!! random h)
      = [m1; m2; m3; m4; m5; m6; m7] /\
    next_asset_price h previous σ =
      ({| BTC := BTC previous * m1; ETH := ETH previous * m2;
          BNB := BNB previous * m3; SOL := SOL previous * m4;
          MKR := MKR previous * m5; XPR := XPR previous * m6;
          ADA := ADA previous * m7 |}%D,
       <[random h := Random_after 7 (price_multiplier h).1 (price_multiplier h).2
                       (σ !!! random h)]> σ).
Proof.
  unfold next_asset_price, draw. cbn [multipliers Random_after].
  set (low := (price_multiplier h).1). set (high := (price_multiplier h).2).
  destruct (Random_uniform low high (σ !!! random h)) as [x1 r1]. cbn [snd].
  rewrite lookup_total_insert_eq.
  destruct (Random_uniform low high r1) as [x2 r2]. cbn [snd].
  rewrite lookup_total_insert_eq, insert_insert_eq.
  destruct (Random_uniform low high r2) as [x3 r3]. cbn [snd].
  rewrite lookup_total_insert_eq, insert_insert_eq.
  destruct (Random_uniform low high r3) as [x4 r4]. cbn [snd].
  rewrite lookup_total_insert_eq, insert_insert_eq.
  destruct (Random_uniform low high r4) as [x5 r5]. cbn [snd].
  rewrite lookup_total_insert_eq, insert_insert_eq.
  destruct (Random_uniform low high r5) as [x6 r6]. cbn [snd].
  rewrite lookup_total_insert_eq, insert_insert_eq.
  destruct (Random_uniform low high r6) as [x7 r7]. cbn [snd].
  rewrite insert_insert_eq. simpl.
  by eexists _, _, _, _, _, _, _.
Qed.

(** A step of a generator reads and writes the [Random] of its own
    history only, and depends on nothing else in the store. *)
Lemma generator_next_alike g g' σ σ' :
  alike g g' -> σ !!! random (self g) = σ' !!! random (self g') ->
  exists r g1 g1' σ1 σ1',
    generator_next g σ = (r, g1, σ1) /\
    generator_next g' σ' = (r, g1', σ1') /\
    alike g1 g1' /\ self g1 = self g /\ self g1' = self g' /\
    σ1 !!! random (self g) = σ1' !!! random (self g') /\
    (forall l, l <> random (self g) -> σ1 !!! l = σ !!! l) /\
    (forall l, l <> random (self g') -> σ1' !!! l = σ' !!! l).
Proof.
  intros (Ht & Hd & Hp & Hc & Hm) Hr. unfold generator_next.
  rewrite <- Hc, <- Ht, <- Hd, <- Hp.
  destruct (closed g) eqn:Hcl.
  { eexists _, _, _, _, _. split_and!; try reflexivity; try done.
    unfold alike. by rewrite Hcl, <- Hc. }
  destruct (date_add_days (today g) (day g)) as [date_|].
  2: { eexists _, _, _, _, _. split_and!; try reflexivity; done. }
  destruct (Z.eqb_spec (day g) 0) as [Hz|Hnz].
  { eexists _, _, _, _, _. split_and!; try reflexivity; done. }
  destruct (next_asset_price_draws (self g) (previous_asset_price g) σ)
    as (m1 & m2 & m3 & m4 & m5 & m6 & m7 & Hms & ->).
  destruct (next_asset_price_draws (self g') (previous_asset_price g) σ')
    as (n1 & n2 & n3 & n4 & n5 & n6 & n7 & Hns & ->).
  rewrite <- Hm, <- Hr in Hns |- *. rewrite Hms in Hns.
  injection Hns as <- <- <- <- <- <- <-.
  eexists _, _, _, _, _. split_and!; try reflexivity; try done.
  - by rewrite !lookup_total_insert_eq.
  - intros l Hl. by rewrite lookup_total_insert_ne.
  - intros l Hl. by rewrite lookup_total_insert_ne.
Qed.

Lemma alike_refl g : alike g g.
Proof. by unfold alike. Qed.

Lemma pulls_length n g σ : length (pulls n g σ) = n.
Proof.
  revert g σ. induction n as [|n IH]; intros g σ; simpl; [done|].
  destruct (generator_next g σ) as [[r g'] σ']. simpl. by rewrite IH.
Qed.

Lemma pulls_take n m g σ : (n <= m)%nat -> take n (pulls m g σ) = pulls n g σ.
Proof.
  revert m g σ. induction n as [|n IH]; intros m g σ Hnm; [by rewrite take_0|].
  destruct m as [|m]; [lia|]. simpl.
  destruct (generator_next g σ) as [[r g'] σ']. simpl. f_equal. apply IH. lia.
Qed.

(** Two generators over different [Random] objects, pulled in any
    interleaving, each produce what a look-alike pulled alone from a
    store of its own produces. *)
Lemma interleave_pulls schedule : forall g1 g2 σ ga gb σa σb,
  random (self g1) <> random (self g2) ->
  alike g1 ga -> alike g2 gb ->
  σ !!! random (self g1) = σa !!! random (self ga) ->
  σ !!! random (self g2) = σb !!! random (self gb) ->
  (interleave schedule g1 g2 σ).1 = pulls (length (interleave schedule g1 g2 σ).1) ga σa /\
  (interleave schedule g1 g2 σ).2 = pulls (length (interleave schedule g1 g2 σ).2) gb σb.
Proof.
  induction schedule as [|[|] schedule IH]; intros g1 g2 σ ga gb σa σb Hne Ha Hb Hra Hrb.
  - done.
  - cbn [interleave].
    destruct (generator_next_alike g1 ga σ σa Ha Hra)
      as (r & g1' & ga' & σ' & σa' & -> & Hga & Ha' & Hs1 & Hsa & Hr' & Hframe & _).
    specialize (IH g1' g2 σ' ga' gb σa' σb).
    rewrite Hs1, Hsa in IH. specialize (IH Hne Ha' Hb Hr').
    rewrite Hframe in IH by done. specialize (IH Hrb).
    destruct (interleave schedule g1' g2 σ') as [out1 out2]. simpl in *.
    rewrite Hga. destruct IH as [<- <-]. done.
  - cbn [interleave].
    destruct (generator_next_alike g2 gb σ σb Hb Hrb)
      as (r & g2' & gb' & σ' & σb' & -> & Hgb & Hb' & Hs2 & Hsb & Hr' & Hframe & _).
    specialize (IH g1 g2' σ' ga gb' σa σb').
    rewrite Hs2, Hsb in IH. specialize (IH Hne Ha Hb').
    rewrite Hframe in IH by done. specialize (IH Hra Hr').
    destruct (interleave schedule g1 g2' σ') as [out1 out2]. simpl in *.
    rewrite Hgb. destruct IH as [<- <-]. done.
Qed.

(** ** How far the walk goes *)

Lemma next_generator g σ :
  next (g, σ) = (let '(r, g', σ') := generator_next g σ in (r, (g', σ'))).
Proof. reflexivity. Qed.

Lemma generator_next_running g σ :
  closed g = false -> 0 <= day g -> valid_date (today g) ->
  today g + day g <= MAXORDINAL ->
  exists p g' σ',
    generator_next g σ = (Return (today g + day g, p), g', σ') /\
    closed g' = false /\ day g' = day g + 1 /\ today g' = today g /\
    self g' = self g.
Proof.
  intros Hc Hd Ht Hmax. unfold generator_next. rewrite Hc.
  rewrite date_add_days_in_range by done.
  destruct (if day g =? 0 then (previous_asset_price g, σ)
            else next_asset_price (self g) (previous_asset_price g) σ) as [p σ'].
  by eexists _, _, _.
Qed.

Lemma after_running n : forall g σ,
  closed g = false -> 0 <= day g -> valid_date (today g) ->
  today g + day g + Z.of_nat n <= MAXORDINAL + 1 ->
  exists g' σ', after n (g, σ) = (g', σ') /\
    closed g' = false /\ day g' = day g + Z.of_nat n /\ today g' = today g /\
    self g' = self g.
Proof.
  induction n as [|n IH]; intros g σ Hc Hd Ht Hmax.
  - exists g, σ. split_and!; try done. lia.
  - destruct (generator_next_running g σ Hc Hd Ht ltac:(lia))
      as (p & g1 & σ1 & Hn & Hc1 & Hd1 & Ht1 & Hs1).
    destruct (IH g1 σ1 Hc1 ltac:(lia) ltac:(by rewrite Ht1) ltac:(lia))
      as (g' & σ' & Ha & Hc' & Hd' & Ht' & Hs').
    exists g', σ'. cbn [after]. rewrite next_generator, Hn. cbn [snd].
    split_and!; try done; [lia|congruence..].
Qed.

(** The pull number [n] (from 0) yields the date [n] days after the
    first as long as that is a date. *)
Lemma nth_next_in_range (h : RandomAssetPriceHistory) σ (clock : date) (n : nat) :
  valid_date clock -> clock + Z.of_nat n <= MAXORDINAL ->
  exists p it,
    nth_next n (RandomAssetPriceHistory_iter clock h, σ)
    = (Return (clock + Z.of_nat n, p), it).
Proof.
  intros Hclock Hmax. rewrite nth_next_after.
  destruct (after_running n (RandomAssetPriceHistory_iter clock h) σ)
    as (g & σ' & -> & Hc & Hd & Ht & _); simpl; try done; [lia|].
  simpl in Hd, Ht.
  destruct (generator_next_running g σ' Hc ltac:(lia) ltac:(by rewrite Ht) ltac:(lia))
    as (p & g1 & σ1 & Hn & _).
  rewrite next_generator, Hn, Ht, Hd. by eexists _, _.
Qed.

(** The pull that would pass 9999-12-31 raises [OverflowError]. *)
Lemma nth_next_past_range (h : RandomAssetPriceHistory) σ (clock : date) (n : nat) :
  valid_date clock -> clock + Z.of_nat n = MAXORDINAL + 1 ->
  (nth_next n (RandomAssetPriceHistory_iter clock h, σ)).1 = Raised OverflowError.
Proof.
  intros Hclock Hmax. rewrite nth_next_after.
  destruct (after_running n (RandomAssetPriceHistory_iter clock h) σ)
    as (g & σ' & -> & Hc & Hd & Ht & _); simpl; try done; [lia|].
  simpl in Hd, Ht.
  rewrite next_generator. unfold generator_next. rewrite Hc.
  rewrite date_add_days_past_range by lia. reflexivity.
Qed.

End random_walk_facts.





(* ===================================================================== *)
(** * More about the valuation and the runs of the simulator              *)
(* ===================================================================== *)

Section valuation.
Context {I : Type} `{Iterator I}.
Implicit Types s : PortfolioSimulator I.

Lemma defaultdict_getitem_default (a : gmap string Z) key k :
  default 0 ((defaultdict_getitem a key).2 !! k) = default 0 (a !! k).
Proof.
  rewrite defaultdict_getitem_lookup. destruct (a !! k); [done|]. by case_decide.
Qed.

Lemma asset_values_loop_listing fs prices : forall a : gmap string Z,
  (asset_values_loop fs prices a).1 =
  omap (fun f => if default 0 (a !! f.1) =? 0 then None
                 else Some (f.1, default 0 (a !! f.1),
                            (f.2 prices * Decimal_of_int (default 0 (a !! f.1)))%D)) fs.
Proof.
  induction fs as [|[asset get] fs IH]; intros a; [done|].
  cbn [asset_values_loop omap list_omap fst snd].
  pose proof (defaultdict_getitem_value a asset) as Hv.
  pose proof (defaultdict_getitem_default a asset) as Hd.
  destruct (defaultdict_getitem a asset) as [quantity a1]. simpl in Hv, Hd. subst quantity.
  specialize (IH a1). destruct (asset_values_loop fs prices a1) as [rest a2].
  simpl in IH. subst rest.
  assert (Hrest :
    omap (fun f => if default 0 (a1 !! f.1) =? 0 then None
                   else Some (f.1, default 0 (a1 !! f.1),
                              (f.2 prices * Decimal_of_int (default 0 (a1 !! f.1)))%D)) fs =
    omap (fun f => if default 0 (a !! f.1) =? 0 then None
                   else Some (f.1, default 0 (a !! f.1),
                              (f.2 prices * Decimal_of_int (default 0 (a !! f.1)))%D)) fs).
  { apply list_omap_ext, Forall2_same_length_lookup. split; [done|].
    intros i f f' Hf Hf'. rewrite Hf in Hf'. injection Hf' as <-. by rewrite !Hd. }
  rewrite Hrest. by destruct (default 0 (a !! asset) =? 0).
Qed.


(** X2.  Reading [asset_values], [value] or [profit] changes no holding, no
    cash and nothing of the day: all it can do is leave keys with 0 in the
    dictionary, and on an engine built with the default fields not even
    that, the object is left as it is. *)
Theorem valuation_reads_only s :
  (value s).2 = (asset_values s).2 /\ (profit s).2 = (asset_values s).2 /\
  cash (asset_values s).2 = cash s /\
  (forall asset, holding (asset_values s).2 asset = holding s asset) /\
  same_day s (asset_values s).2 /\
  (reachable s -> (asset_values s).2 = s).
Proof.
  split_and!.
  - apply value_state.
  - apply profit_state.
  - by rewrite asset_values_state.
  - apply asset_values_holding.
  - by rewrite asset_values_state.
  - intros Hs. by apply asset_values_tracks, reachable_tracks.
Qed.

(** Whatever the decimal, taking it off itself leaves zero. *)
Lemma Decimal_sub_diag (v : Decimal) : (v - v)%D = mkDecimal 0 (exponent v).
Proof.
  unfold Decimal_sub, Decimal_add. simpl. rewrite Z.min_id, scaled_neg.
  rewrite Z.add_opp_diag_r. reflexivity.
Qed.

(** The command run leaves the baseline alone. *)
Lemma exec_initial_value c s : initial_value (exec c s).2 = initial_value s.
Proof.
  destruct c as [asset amount|asset amount| |]; simpl.
  - unfold buy. destruct (getattr (current_prices s) asset); [|done..].
    destruct (_ <? _)%D; [done|]. simpl.
    by destruct (defaultdict_getitem (assets s) asset).
  - unfold sell. destruct (assets s !! asset); [|done].
    destruct (_ <? _); [done|]. by destruct (getattr (current_prices s) asset).
  - unfold next_day. by destruct (next (days s)) as [[[d p]|e] it].
  - by rewrite profit_state, asset_values_state.
Qed.

(** X4.  No run of buys, sells, day advances and summaries, valid or not,
    successful or not, changes the initial value. *)
Theorem initial_value_is_kept (cs : list command) s :
  initial_value (run_commands cs s) = initial_value s.
Proof.
  revert s. induction cs as [|c cs IH]; intros s; [done|].
  simpl. fold (run_commands cs (exec c s).2). by rewrite IH, exec_initial_value.
Qed.


End valuation.

Lemma valuation_reads_only_witness :
  exists s, create one_day (Decimal_of_int 100000) = Return s /\
    reachable (buy "BTC" 2 s).2 /\
    (asset_values (buy "BTC" 2 s).2).2 = (buy "BTC" 2 s).2.
Proof.
  destruct (create one_day (Decimal_of_int 100000)) as [s|e] eqn:Hs;
    [|by vm_compute in Hs].
  assert (Hr : reachable (buy "BTC" 2 s).2).
  { apply (reachable_exec (Buy "BTC" 2)). by eapply reachable_init. }
  exists s. split; [reflexivity|]. split; [exact Hr|].
  exact (proj2 (proj2 (proj2 (proj2 (proj2
           (@valuation_reads_only _ list_next (buy "BTC" 2 s).2))))) Hr).
Defined.


(** What a freshly built engine answers to the valuation reads. *)
Lemma create_valuation {H} `{AssetPriceHistory H} (history : H)
    (cash0 : Decimal) (s : PortfolioSimulator iterator) :
  create history cash0 = Return s ->
  cash s = cash0 /\ day_count s = 1 /\ tracks s /\
  (forall asset, holding s asset = 0) /\
  (asset_values s).1 = [] /\
  (value s).1 = initial_value s /\
  (profit s).1 = mkDecimal 0 (exponent (initial_value s)).
Proof.
  intros Hcreate.
  assert (Hfacts : cash s = cash0 /\ day_count s = 1 /\
                   (forall asset, holding s asset = 0) /\
                   initial_value s = (cash0 + Decimal_of_int 0)%D).
  { pose proof Hcreate as Hc. unfold create, PortfolioSimulator_init in Hc.
    destruct (cash0 <? Decimal_of_int 0)%D eqn:Hlt; [done|].
    destruct (next (iter history)) as [[[d p]|e] it] eqn:Hnext; [|done]. clear Hc.
    apply Decimal_ltb_ge in Hlt.
    destruct (create_returns history cash0 d p it Hlt Hnext)
      as (s' & Hs' & _ & _ & _ & Hcount & Hcash & Hhold & Hinit).
    rewrite Hcreate in Hs'. injection Hs' as <-. done. }
  destruct Hfacts as (Hcash & Hcount & Hhold & Hinit).
  assert (Hvs : (asset_values s).1 = []).
  { unfold asset_values.
    pose proof (asset_values_loop_empty dataclass_fields (current_prices s)
                  (assets s) Hhold) as Hl.
    destruct (asset_values_loop dataclass_fields (current_prices s) (assets s))
      as [vs a]. exact Hl. }
  assert (Hvalue : (value s).1 = initial_value s).
  { unfold value. destruct (asset_values s) as [vs s']. cbn [fst] in Hvs |- *.
    subst vs. simpl. by rewrite Hinit, Hcash. }
  assert (Hprofit : (profit s).1 = mkDecimal 0 (exponent (initial_value s))).
  { unfold profit. pose proof (value_state s) as Hst.
    destruct (value s) as [v s']. simpl in Hvalue, Hst |- *. subst v s'.
    rewrite asset_values_state. unfold set_assets. simpl. apply Decimal_sub_diag. }
  split_and!; try done. by eapply init_tracks.
Qed.



(** [n] day advances over a list of pairs. *)
Lemma next_days_list (n : nat) : forall s : PortfolioSimulator (list (date * AssetPrice)),
  days (run_commands (replicate n NextDay) s) = drop n (days s) /\
  day_count (run_commands (replicate n NextDay) s)
    = day_count s + Z.of_nat (n `min` length (days s)) /\
  (current_date (run_commands (replicate n NextDay) s),
   current_prices (run_commands (replicate n NextDay) s))
    = default (current_date s, current_prices s) (last (take n (days s))) /\
  cash (run_commands (replicate n NextDay) s) = cash s /\
  assets (run_commands (replicate n NextDay) s) = assets s /\
  initial_value (run_commands (replicate n NextDay) s) = initial_value s.
Proof.
  induction n as [|n IH]; intros s.
  - simpl. rewrite drop_0. split_and!; try done. lia.
  - change (run_commands (replicate (S n) NextDay) s)
      with (run_commands (replicate n NextDay) (next_day s).2).
    destruct (days s) as [|[d p] rest] eqn:Hd.
    + assert (Hsame : (next_day s).2 = s).
      { unfold next_day. rewrite Hd. cbn [next list_next snd]. unfold set_days.
        rewrite <- Hd. by destruct s. }
      rewrite Hsame. destruct (IH s) as (H1 & H2 & H3 & H4 & H5 & H6).
      rewrite Hd in H1, H2, H3. rewrite H1, H2, H3, H4, H5, H6.
      rewrite !drop_nil, !take_nil. by rewrite !Nat.min_0_r.
    + assert (Hstep : days (next_day s).2 = rest /\
                day_count (next_day s).2 = day_count s + 1 /\
                current_date (next_day s).2 = d /\ current_prices (next_day s).2 = p /\
                cash (next_day s).2 = cash s /\ assets (next_day s).2 = assets s /\
                initial_value (next_day s).2 = initial_value s).
      { unfold next_day. rewrite Hd. cbn [next list_next snd]. by split_and!. }
      destruct Hstep as (S1 & S2 & S3 & S4 & S5 & S6 & S7).
      destruct (IH (next_day s).2) as (H1 & H2 & H3 & H4 & H5 & H6).
      rewrite S1 in H1, H2, H3. rewrite S2 in H2. rewrite S3, S4 in H3.
      rewrite H1, H2, H3, H4, H5, H6, S5, S6, S7. cbn [length take drop].
      split_and!; try done; [lia|].
      rewrite last_cons. by destruct (last (take n rest)).
Qed.

(** X5.  An engine over a finite list of pairs walks through it: after [n]
    day advances it shows the pair at position [n] with day counter
    [n + 1], or, once the list is used up, the last pair with the length
    of the list as day counter; the advances past the end raise and change
    nothing; cash and holdings are never touched. *)
Theorem days_follow_the_list (l : list (date * AssetPrice)) (cash0 : Decimal)
    (s : PortfolioSimulator (list (date * AssetPrice))) (n : nat) :
  create l cash0 = Return s ->
  day_count (run_commands (replicate n NextDay) s)
    = Z.of_nat (S n `min` length l) /\
  l !! (n `min` (length l - 1))%nat
    = Some (current_date (run_commands (replicate n NextDay) s),
            current_prices (run_commands (replicate n NextDay) s)) /\
  days (run_commands (replicate n NextDay) s) = drop (S n) l /\
  cash (run_commands (replicate n NextDay) s) = cash s /\
  assets (run_commands (replicate n NextDay) s) = assets s /\
  ((length l <= n)%nat ->
   exec NextDay (run_commands (replicate n NextDay) s)
   = (Raised StopIteration, run_commands (replicate n NextDay) s)).
Proof.
  intros Hcreate.
  assert (Hfirst : exists d p rest, l = (d, p) :: rest /\ days s = rest /\
                     current_date s = d /\ current_prices s = p /\ day_count s = 1).
  { pose proof Hcreate as Hc. unfold create, PortfolioSimulator_init in Hc.
    destruct (cash0 <? Decimal_of_int 0)%D eqn:Hlt; [done|].
    destruct l as [|[d p] rest]; [done|]. clear Hc.
    apply Decimal_ltb_ge in Hlt.
    destruct (@create_returns _ list_history ((d, p) :: rest) cash0 d p rest Hlt eq_refl)
      as (s' & Hs' & Hdays & Hdate & Hprices & Hcount & _).
    rewrite Hcreate in Hs'. injection Hs' as <-. by exists d, p, rest. }
  destruct Hfirst as (d & p & rest & -> & Hdays & Hdate & Hprices & Hcount).
  destruct (next_days_list n s) as (H1 & H2 & H3 & H4 & H5 & _).
  rewrite Hdays in H1, H2, H3. rewrite Hdate, Hprices in H3. rewrite Hcount in H2.
  split_and!; try done.
  - rewrite H2. cbn [length]. lia.
  - rewrite H3. cbn [length]. rewrite Nat.sub_succ, Nat.sub_0_r.
    rewrite last_lookup, length_take.
    destruct (n `min` length rest)%nat as [|m] eqn:Hm.
    { rewrite (lookup_ge_None_2 (take n rest)) by (rewrite length_take; lia). done. }
    cbn [Init.Nat.pred lookup list_lookup].
    rewrite lookup_take_lt by lia.
    destruct (lookup_lt_is_Some_2 rest m ltac:(lia)) as [x Hx]. by rewrite Hx.
  - intros Hlen. cbn [exec].
    assert (Hnil : days (run_commands (replicate n NextDay) s) = []).
    { rewrite H1. apply drop_ge. simpl in Hlen. lia. }
    clear -Hnil. set (s' := run_commands (replicate n NextDay) s) in *. clearbody s'.
    destruct s' as [it ? ? ? ? ? ?]. simpl in Hnil. subst it. reflexivity.
Qed.

Lemma days_follow_the_list_witness :
  exists s, create two_days (Decimal_of_int 100000) = Return s /\
    day_count (run_commands (replicate 5 NextDay) s) = 2 /\
    current_prices (run_commands (replicate 5 NextDay) s) = base_with_BTC 25000.
Proof.
  destruct (create two_days (Decimal_of_int 100000)) as [s|e] eqn:Hs;
    [|by vm_compute in Hs].
  destruct (days_follow_the_list two_days _ s 5 Hs) as (Hcount & Hpair & _).
  exists s. split; [reflexivity|]. split; [exact Hcount|].
  assert (Hl : two_days !! (5 `min` (length two_days - 1))%nat
               = Some (example_date + 1, base_with_BTC 25000)) by reflexivity.
  exact (f_equal (fun o : option (date * AssetPrice) =>
                    match o with Some x => x.2 | None => base_asset_price end)
           (eq_trans (eq_sym Hpair) Hl)).
Defined.

(* ===================================================================== *)
(** * More about the random walk                                          *)
(* ===================================================================== *)

Lemma Decimal_mul_pos (a b : Decimal) :
  Decimal_lt (Decimal_of_int 0) a -> Decimal_lt (Decimal_of_int 0) b ->
  Decimal_lt (Decimal_of_int 0) (a * b).
Proof.
  rewrite !Decimal_pos_coefficient. intros Ha Hb.
  pose proof (Decimal_fix_sgn (mkDecimal (coefficient a * coefficient b)
                                 (exponent a + exponent b))) as Hs.
  simpl in Hs. rewrite (Z.sgn_pos (coefficient a * coefficient b)) in Hs by nia.
  unfold Decimal_mul. lia.
Qed.

Lemma positive_prices_nonneg (p : AssetPrice) : positive_prices p -> nonneg_prices p.
Proof.
  unfold positive_prices, nonneg_prices. intros Hp.
  eapply Forall_impl; [exact Hp|]. intros f Hf. simpl in Hf |- *.
  apply Decimal_nonneg_coefficient. apply Decimal_pos_coefficient in Hf. lia.
Qed.

Lemma after_add {I} `{Iterator I} (a b : nat) (it : I) :
  after (a + b) it = after b (after a it).
Proof. revert it. induction a as [|a IH]; intros it; simpl; [done|apply IH]. Qed.

Section random_walk_more.
Context `{PyRandom}.
Implicit Types (g : generator) (σ : gmap nat Random) (h : RandomAssetPriceHistory).

Lemma multipliers_Forall (P : Decimal -> Prop) (low high : float) (n : nat) :
  (forall r, P (Decimal_of_float (Random_uniform low high r).1)) ->
  forall r, Forall P (multipliers n low high r).
Proof.
  intros HP. induction n as [|n IH]; intros r; simpl; [constructor|].
  specialize (HP r). destruct (Random_uniform low high r) as [x r']. by constructor.
Qed.

Lemma multipliers_add (low high : float) (a b : nat) : forall r,
  multipliers (a + b) low high r
  = multipliers a low high r ++ multipliers b low high (Random_after a low high r).
Proof.
  induction a as [|a IH]; intros r; simpl; [done|].
  destruct (Random_uniform low high r) as [x r']. simpl. by rewrite IH.
Qed.

Lemma Random_after_add (low high : float) (a b : nat) : forall r,
  Random_after (a + b) low high r = Random_after b low high (Random_after a low high r).
Proof. induction a as [|a IH]; intros r; simpl; [done|apply IH]. Qed.

Lemma multipliers_length (low high : float) (n : nat) : forall r,
  length (multipliers n low high r) = n.
Proof.
  induction n as [|n IH]; intros r; simpl; [done|].
  destruct (Random_uniform low high r). simpl. by rewrite IH.
Qed.

(** One step of a running generator past day 0: the new prices are the old
    ones times the seven draws, and the generator of the history has
    advanced by seven. *)
Lemma generator_next_step g σ date_ :
  closed g = false -> day g <> 0 ->
  date_add_days (today g) (day g) = Some date_ ->
  exists p g',
    generator_next g σ
    = (Return (date_, p), g',
       <[random (self g) :=
           Random_after 7 (price_multiplier (self g)).1 (price_multiplier (self g)).2
             (σ !!! random (self g))]> σ) /\
    price_list p = zip_with Decimal_mul (price_list (previous_asset_price g))
                     (multipliers 7 (price_multiplier (self g)).1
                        (price_multiplier (self g)).2 (σ !!! random (self g))) /\
    previous_asset_price g' = p /\ day g' = day g + 1 /\ today g' = today g /\
    self g' = self g /\ closed g' = false.
Proof.
  intros Hc Hd Hdate. unfold generator_next. rewrite Hc, Hdate.
  destruct (Z.eqb_spec (day g) 0); [done|].
  destruct (next_asset_price_draws (self g) (previous_asset_price g) σ)
    as (m1 & m2 & m3 & m4 & m5 & m6 & m7 & -> & ->).
  eexists _, _. split_and!; reflexivity.
Qed.

Lemma positive_prices_scaled (p q : AssetPrice) (ms : list Decimal) :
  positive_prices p -> Forall (Decimal_lt (Decimal_of_int 0)) ms ->
  price_list q = zip_with Decimal_mul (price_list p) ms ->
  length ms = 7%nat ->
  positive_prices q.
Proof.
  intros Hp Hms Hq Hlen.
  destruct ms as [|m1 [|m2 [|m3 [|m4 [|m5 [|m6 [|m7 [|]]]]]]]]; try done.
  unfold positive_prices, price_list, dataclass_fields in *.
  cbn [fmap list_fmap zip_with snd] in Hq.
  injection Hq as Q1 Q2 Q3 Q4 Q5 Q6 Q7.
  rewrite !Forall_cons in Hp. rewrite !Forall_cons in Hms. cbn [snd] in Hp.
  destruct Hp as (P1 & P2 & P3 & P4 & P5 & P6 & P7 & _).
  destruct Hms as (M1 & M2 & M3 & M4 & M5 & M6 & M7 & _).
  apply Forall_cons_2; [cbn [snd]; rewrite Q1; by apply Decimal_mul_pos|].
  apply Forall_cons_2; [cbn [snd]; rewrite Q2; by apply Decimal_mul_pos|].
  apply Forall_cons_2; [cbn [snd]; rewrite Q3; by apply Decimal_mul_pos|].
  apply Forall_cons_2; [cbn [snd]; rewrite Q4; by apply Decimal_mul_pos|].
  apply Forall_cons_2; [cbn [snd]; rewrite Q5; by apply Decimal_mul_pos|].
  apply Forall_cons_2; [cbn [snd]; rewrite Q6; by apply Decimal_mul_pos|].
  apply Forall_cons_2; [cbn [snd]; rewrite Q7; by apply Decimal_mul_pos|].
  apply Forall_nil_2.
Qed.

Lemma generator_next_positive g σ :
  positive_prices (previous_asset_price g) ->
  (forall r, Decimal_lt (Decimal_of_int 0)
     (Decimal_of_float (Random_uniform (price_multiplier (self g)).1
                          (price_multiplier (self g)).2 r).1)) ->
  positive_prices (previous_asset_price (generator_next g σ).1.2) /\
  self (generator_next g σ).1.2 = self g /\
  (forall d p, (generator_next g σ).1.1 = Return (d, p) -> positive_prices p).
Proof.
  intros Hp Hdraw.
  destruct (closed g) eqn:Hc.
  { unfold generator_next. rewrite Hc. by split_and!. }
  destruct (date_add_days (today g) (day g)) as [date_|] eqn:Hdate.
  2: { unfold generator_next. rewrite Hc, Hdate. by split_and!. }
  destruct (Z.eq_dec (day g) 0) as [Hz|Hnz].
  { unfold generator_next. rewrite Hc, Hdate, Hz. simpl. split_and!; try done.
    by intros d p [= _ <-]. }
  destruct (generator_next_step g σ date_ Hc Hnz Hdate)
    as (p & g' & -> & Hprices & Hprev & _ & _ & Hself & _).
  assert (Hpos : positive_prices p).
  { eapply positive_prices_scaled; [exact Hp| |exact Hprices|apply multipliers_length].
    by apply multipliers_Forall. }
  simpl. rewrite Hprev. split_and!; try done. by intros d p' [= _ <-].
Qed.

Lemma nth_next_positive (n : nat) : forall g σ d p it,
  positive_prices (previous_asset_price g) ->
  (forall r, Decimal_lt (Decimal_of_int 0)
     (Decimal_of_float (Random_uniform (price_multiplier (self g)).1
                          (price_multiplier (self g)).2 r).1)) ->
  nth_next n (g, σ) = (Return (d, p), it) -> positive_prices p.
Proof.
  induction n as [|n IH]; intros g σ d p it Hp Hdraw Hn;
    destruct (generator_next_positive g σ Hp Hdraw) as (Hp' & Hself & Hyield).
  - simpl in Hn. rewrite next_generator in Hn.
    destruct (generator_next g σ) as [[r g'] σ']. simpl in *.
    injection Hn as -> _. by eapply Hyield.
  - simpl in Hn. rewrite next_generator in Hn.
    destruct (generator_next g σ) as [[r g'] σ']. simpl in *.
    eapply (IH g' σ'); [done| |exact Hn]. by rewrite Hself.
Qed.

Lemma base_asset_price_positive : positive_prices base_asset_price.
Proof. unfold positive_prices, dataclass_fields. repeat constructor. Qed.


End random_walk_more.

Section random_walk_store.
Context `{PyRandom}.
Implicit Types (g : generator) (σ : gmap nat Random) (h : RandomAssetPriceHistory).

Lemma generator_next_first h σ (clock : date) :
  valid_date clock ->
  generator_next (RandomAssetPriceHistory_iter clock h) σ
  = (Return (clock, base_asset_price),
     {| self := h; today := clock; day := 1;
        previous_asset_price := base_asset_price; closed := false |}, σ).
Proof.
  intros Hclock. unfold generator_next. simpl.
  rewrite date_add_days_in_range by (unfold valid_date in *; lia).
  by rewrite Z.add_0_r.
Qed.

Lemma after_store (n : nat) : forall g σ,
  closed g = false -> 1 <= day g -> valid_date (today g) ->
  today g + day g + Z.of_nat n <= MAXORDINAL + 1 ->
  exists g' σ', after n (g, σ) = (g', σ') /\
    σ' !!! random (self g)
      = Random_after (7 * n) (price_multiplier (self g)).1 (price_multiplier (self g)).2
          (σ !!! random (self g)) /\
    (forall l, l <> random (self g) -> σ' !!! l = σ !!! l) /\
    closed g' = false /\ day g' = day g + Z.of_nat n /\ today g' = today g /\
    self g' = self g.
Proof.
  induction n as [|n IH]; intros g σ Hc Hd Ht Hmax.
  - exists g, σ. split_and!; try done. lia.
  - destruct (generator_next_step g σ (today g + day g) Hc ltac:(lia))
      as (p & g1 & Hn & _ & _ & Hd1 & Ht1 & Hs1 & Hc1).
    { apply date_add_days_in_range; [done|lia..]. }
    destruct (IH g1 (<[random (self g) :=
                Random_after 7 (price_multiplier (self g)).1 (price_multiplier (self g)).2
                  (σ !!! random (self g))]> σ) Hc1 ltac:(lia) ltac:(by rewrite Ht1)
                ltac:(lia))
      as (g' & σ' & Ha & Hr & Hframe & Hc' & Hd' & Ht' & Hs').
    exists g', σ'. cbn [after]. rewrite next_generator, Hn. cbn [snd].
    rewrite Hs1 in Hr, Hframe. rewrite lookup_total_insert_eq in Hr.
    split_and!; try done; try congruence; try lia.
    + rewrite Hr. replace (7 * S n)%nat with (7 + 7 * n)%nat by lia.
      by rewrite Random_after_add.
    + intros l Hl. rewrite Hframe by done. by rewrite lookup_total_insert_ne.
Qed.


(** X9.  Two iterators of one history share its generator: when the first
    has produced its days 0 and 1, the day 1 of a second iterator of the
    same history is built from the draws number 8 to 14 of the generator,
    not from the first seven again. *)
Theorem iterators_share_the_generator h σ (clock : date) :
  valid_date clock -> clock + 1 <= MAXORDINAL ->
  exists g1 p1 g2 σ1 p2 g3 σ2,
    generator_next (RandomAssetPriceHistory_iter clock h) σ
      = (Return (clock, base_asset_price), g1, σ) /\
    generator_next g1 σ = (Return (clock + 1, p1), g2, σ1) /\
    generator_next (RandomAssetPriceHistory_iter clock h) σ1
      = (Return (clock, base_asset_price), g1, σ1) /\
    generator_next g1 σ1 = (Return (clock + 1, p2), g3, σ2) /\
    price_list p1 = zip_with Decimal_mul (price_list base_asset_price)
      (take 7 (multipliers 14 (price_multiplier h).1 (price_multiplier h).2
                 (σ !!! random h))) /\
    price_list p2 = zip_with Decimal_mul (price_list base_asset_price)
      (drop 7 (multipliers 14 (price_multiplier h).1 (price_multiplier h).2
                 (σ !!! random h))).
Proof.
  intros Hclock Hmax.
  pose (g1 := {| self := h; today := clock; day := 1;
                 previous_asset_price := base_asset_price; closed := false |}).
  pose (σ1 := <[random h := Random_after 7 (price_multiplier h).1 (price_multiplier h).2
                              (σ !!! random h)]> σ).
  assert (Hdate : date_add_days (today g1) (day g1) = Some (clock + 1)).
  { apply date_add_days_in_range; simpl; [done|lia..]. }
  assert (Hday : day g1 <> 0) by done.
  destruct (generator_next_step g1 σ (clock + 1) eq_refl Hday Hdate)
    as (p1 & g2 & Hn1 & Hp1 & _).
  destruct (generator_next_step g1 σ1 (clock + 1) eq_refl Hday Hdate)
    as (p2 & g3 & Hn2 & Hp2 & _).
  cbn [self previous_asset_price g1] in Hn1, Hp1, Hn2, Hp2.
  exists g1, p1, g2, σ1, p2, g3. eexists.
  split; [by apply generator_next_first|]. split; [exact Hn1|].
  split; [by apply generator_next_first|]. split; [exact Hn2|].
  change 14%nat with (7 + 7)%nat. rewrite multipliers_add.
  rewrite take_app_length' by (symmetry; apply multipliers_length).
  rewrite drop_app_length' by (symmetry; apply multipliers_length).
  split; [exact Hp1|].
  rewrite Hp2. unfold σ1. by rewrite lookup_total_insert_eq.
Qed.

Lemma after_closed (k : nat) g σ :
  closed g = true -> after k (g, σ) = (g, σ).
Proof.
  intros Hc. induction k as [|k IH]; [done|].
  cbn [after]. rewrite next_generator. unfold generator_next. by rewrite Hc.
Qed.

(** X10.  The overflow ends the walk for good: once the pull past
    9999-12-31 has raised [OverflowError], every later pull raises
    [StopIteration]. *)
Theorem walk_is_over_after_the_overflow h σ (clock : date) (n m : nat) :
  valid_date clock -> clock + Z.of_nat n = MAXORDINAL + 1 -> (n < m)%nat ->
  (nth_next m (RandomAssetPriceHistory_iter clock h, σ)).1 = Raised StopIteration.
Proof.
  intros Hclock Hmax Hnm. rewrite nth_next_after.
  replace m with (S n + (m - S n))%nat by lia. rewrite after_add.
  replace (S n) with (n + 1)%nat by lia. rewrite after_add.
  destruct (after_running n (RandomAssetPriceHistory_iter clock h) σ)
    as (g & σ' & -> & Hc & Hd & Ht & _); simpl; try done; [lia|].
  simpl in Hd, Ht. cbn [after]. rewrite next_generator.
  assert (Hover : generator_next g σ' = (Raised OverflowError, close g, σ')).
  { unfold generator_next. rewrite Hc.
    by rewrite date_add_days_past_range by lia. }
  rewrite Hover. cbn [snd]. rewrite after_closed by done.
  rewrite next_generator. unfold generator_next. reflexivity.
Qed.

End random_walk_store.

(* ===================================================================== *)
(** * Two walks with the same seed                                        *)
(* ===================================================================== *)

Section same_seed.
Context `{PyRandom}.
Implicit Types (g : generator) (σ : gmap nat Random) (h : RandomAssetPriceHistory).

(** The pulls of a running generator past day 0 are pairs, as long as the
    dates last, and their prices are those of the specified walk from the
    prices and the generator the pulls start with. *)
Lemma pulls_running (n : nat) : forall g σ (k : nat),
  closed g = false -> 1 <= day g -> valid_date (today g) ->
  (k < n)%nat -> today g + day g + Z.of_nat k <= MAXORDINAL ->
  exists p,
    pulls n g σ !! k = Some (Return (today g + day g + Z.of_nat k, p)) /\
    price_list p
    = specified_walk (S k) (price_list (previous_asset_price g))
        (price_multiplier (self g)).1 (price_multiplier (self g)).2
        (σ !!! random (self g)).
Proof.
  induction n as [|n IH]; intros g σ k Hc Hd Ht Hk Hmax; [lia|].
  destruct (generator_next_step g σ (today g + day g) Hc ltac:(lia))
    as (p1 & g' & Hn & Hp1 & Hprev & Hday & Htoday & Hself & Hclosed).
  { apply date_add_days_in_range; [done|lia..]. }
  cbn [pulls]. rewrite Hn. cbv beta iota. destruct k as [|k].
  - exists p1. cbn [specified_walk]. split; [|exact Hp1].
    rewrite lookup_cons. cbn [Z.of_nat]. by rewrite Z.add_0_r.
  - destruct (IH g' (<[random (self g) :=
                Random_after 7 (price_multiplier (self g)).1 (price_multiplier (self g)).2
                  (σ !!! random (self g))]> σ) k Hclosed ltac:(lia)
                ltac:(by rewrite Htoday) ltac:(lia) ltac:(lia))
      as (p & Hlook & Hp).
    exists p. split.
    + rewrite lookup_cons. refine (eq_trans Hlook _).
      rewrite Htoday, Hday. do 3 f_equal. lia.
    + rewrite Hp, Hprev, Hself, lookup_total_insert_eq, Hp1. reflexivity.
Qed.

(** The same from the start of the walk. *)
Lemma pulls_walk (n : nat) h σ (clock : date) (k : nat) :
  valid_date clock -> (k < n)%nat -> clock + Z.of_nat k <= MAXORDINAL ->
  exists p,
    pulls n (RandomAssetPriceHistory_iter clock h) σ !! k
    = Some (Return (clock + Z.of_nat k, p)) /\
    price_list p
    = specified_walk k (price_list base_asset_price)
        (price_multiplier h).1 (price_multiplier h).2 (σ !!! random h).
Proof.
  intros Hclock Hk Hmax. destruct n as [|n]; [lia|].
  cbn [pulls]. rewrite generator_next_first by done. cbv beta iota.
  destruct k as [|k].
  - exists base_asset_price. split; [|done].
    rewrite lookup_cons. cbn [Z.of_nat]. by rewrite Z.add_0_r.
  - set (g1 := {| self := h; today := clock; day := 1;
                  previous_asset_price := base_asset_price; closed := false |}).
    assert (H1 : 1 <= day g1) by (simpl; lia).
    assert (H2 : today g1 + day g1 + Z.of_nat k <= MAXORDINAL) by (simpl; lia).
    destruct (pulls_running n g1 σ k eq_refl H1 Hclock ltac:(lia) H2) as (p & Hlook & Hp).
    exists p. split; [|exact Hp].
    rewrite lookup_cons. refine (eq_trans Hlook _).
    cbn [today day g1]. do 3 f_equal. lia.
Qed.

(** The draws of a day in the sequence of all the draws: those of day
    [k + 1] are the draws number [7 * k + 1] to [7 * k + 7]. *)
Lemma specified_walk_S (k : nat) : forall (prices : list Decimal) (low high : float)
    (r : Random),
  specified_walk (S k) prices low high r
  = zip_with Decimal_mul (specified_walk k prices low high r)
      (take 7 (drop (7 * k) (multipliers (7 * S k) low high r))).
Proof.
  assert (Hdraws : forall (k : nat) low high r,
            take 7 (drop (7 * k) (multipliers (7 * S k) low high r))
            = multipliers 7 low high (Random_after (7 * k) low high r)).
  { intros k' low high r. replace (7 * S k')%nat with (7 * k' + 7)%nat by lia.
    rewrite multipliers_add.
    rewrite drop_app_length' by (symmetry; apply multipliers_length).
    apply take_ge. by rewrite multipliers_length. }
  induction k as [|k IH]; intros prices low high r.
  - rewrite Hdraws. reflexivity.
  - change (specified_walk (S (S k)) prices low high r)
      with (specified_walk (S k) (zip_with Decimal_mul prices (multipliers 7 low high r))
              low high (Random_after 7 low high r)).
    rewrite IH. cbn [specified_walk]. f_equal.
    rewrite !Hdraws. f_equal.
    replace (7 * S k)%nat with (7 + 7 * k)%nat by lia.
    by rewrite Random_after_add.
Qed.

Lemma interleave_length (schedule : list bool) : forall g1 g2 σ,
  (length (interleave schedule g1 g2 σ).1 + length (interleave schedule g1 g2 σ).2
   = length schedule)%nat.
Proof.
  induction schedule as [|[|] schedule IH]; intros g1 g2 σ; cbn [interleave]; [done|..].
  - destruct (generator_next g1 σ) as [[r g1'] σ']. specialize (IH g1' g2 σ').
    destruct (interleave schedule g1' g2 σ') as [out1 out2]. simpl in *. lia.
  - destruct (generator_next g2 σ) as [[r g2'] σ']. specialize (IH g1 g2' σ').
    destruct (interleave schedule g1 g2' σ') as [out1 out2]. simpl in *. lia.
Qed.


End same_seed.



Lemma lcg_draw_positive (low high r : Z) :
  0 < low -> low <= high ->
  0 < coefficient (@Decimal_of_float lcg_random
                     (@Random_uniform lcg_random low high r).1).
Proof.
  intros Hlow Hhigh. cbn [Decimal_of_float Random_uniform lcg_random fst coefficient].
  pose proof (Z.mod_pos_bound (1103515245 * r + 12345) (2 ^ 31) ltac:(lia)) as Hr.
  assert (0 <= (high - low) * ((1103515245 * r + 12345) mod 2 ^ 31) / 2 ^ 31).
  { apply Z.div_pos; [nia|lia]. }
  lia.
Qed.



Lemma iterators_share_the_generator_witness :
  exists p1 p2 g1 g2 g3 σ1 σ2,
    generator_next g1 example_walk.2 = (Return (example_date + 1, p1), g2, σ1) /\
    generator_next g1 σ1 = (Return (example_date + 1, p2), g3, σ2) /\
    BTC p1 <> BTC p2.
Proof.
  destruct (@iterators_share_the_generator lcg_random example_walk.1 example_walk.2
              example_date ltac:(unfold valid_date; vm_compute; split; discriminate)
              ltac:(vm_compute; discriminate))
    as (g1 & p1 & g2 & σ1 & p2 & g3 & σ2 & _ & Hn1 & _ & Hn2 & Hp1 & Hp2).
  exists p1, p2, g1, g2, g3, σ1, σ2. split; [exact Hn1|]. split; [exact Hn2|].
  intros Heq.
  assert (H1 : head (price_list p1) = Some (BTC p1)) by reflexivity.
  assert (H2 : head (price_list p2) = Some (BTC p2)) by reflexivity.
  rewrite Hp1 in H1. rewrite Hp2 in H2. rewrite <- Heq in H2.
  vm_compute in H1, H2. congruence.
Defined.

Lemma walk_is_over_after_the_overflow_witness :
  (nth_next (S (Z.to_nat 2912136))
     (RandomAssetPriceHistory_iter example_date example_walk.1, example_walk.2)).1
  = Raised StopIteration.
Proof.
  apply (@walk_is_over_after_the_overflow lcg_random _ _ _ (Z.to_nat 2912136)).
  - unfold valid_date. vm_compute. split; discriminate.
  - rewrite Z2Nat.id by lia. reflexivity.
  - apply Nat.lt_succ_diag_r.
Defined.

(* ===================================================================== *)
(** * The terminal dialogue                                               *)
(* ===================================================================== *)

(** [d <= 0] and [d == 0] on the coefficient. *)
Lemma Decimal_nonneg_coefficient' (d : Decimal) :
  Decimal_le d (Decimal_of_int 0) <-> coefficient d <= 0.
Proof.
  rewrite (Decimal_le_scaled d _ (Z.min 0 (exponent d))) by (simpl; lia).
  unfold scaled. simpl.
  pose proof (pow10_pos (exponent d - Z.min 0 (exponent d)) ltac:(lia)). nia.
Qed.

Lemma Decimal_zero_coefficient (d : Decimal) :
  Decimal_eq d (Decimal_of_int 0) <-> coefficient d = 0.
Proof.
  rewrite (Decimal_eq_scaled d _ (Z.min 0 (exponent d))) by (simpl; lia).
  unfold scaled. simpl.
  pose proof (pow10_pos (exponent d - Z.min 0 (exponent d)) ltac:(lia)). nia.
Qed.

Section dialogue_facts.
Context {I : Type} `{Iterator I} `{Builtins}.
Implicit Types (s : PortfolioSimulator I) (t : terminal).

(** [input_int] in the words of the source: a prompt, a line, and again
    after a complaint if [int] refuses the line. *)
Lemma input_int_unfold (prompt : message) t :
  input_int prompt t =
  match input prompt t with
  | (Failed e, t') => (Failed e, t')
  | (Done line, t') =>
      match int line with
      | Some n => (Done n, t')
      | None => input_int prompt (print not_a_number t')
      end
  end.
Proof.
  unfold input_int, input, print. destruct t as [[|line rest] out]; simpl; [done|].
  destruct (int line); [done|]. by rewrite <- app_assoc.
Qed.

Lemma input_int_lines_spec (prompt : message) (lines : list string) :
  forall (out : list message) r t,
  input_int_lines prompt lines out = (r, t) ->
  match r with
  | Done n => exists bad good,
      lines = bad ++ good :: stdin t /\ Forall (fun l => int l = None) bad /\
      int good = Some n
  | Failed e => e = EOFError /\ stdin t = [] /\ Forall (fun l => int l = None) lines
  end.
Proof.
  induction lines as [|line rest IH]; intros out r t; simpl.
  - intros [= <- <-]. by split_and!.
  - destruct (int line) as [n|] eqn:Hline.
    + intros [= <- <-]. exists [], line. by split_and!.
    + intros Hrest. specialize (IH _ _ _ Hrest). destruct r as [n|e].
      * destruct IH as (bad & good & -> & Hbad & Hgood).
        exists (line :: bad), good. split_and!; [done| |done]. by constructor.
      * destruct IH as (-> & Ht & Hbad). split_and!; [done..|]. by constructor.
Qed.

(** A number read has cost at least one line. *)
Lemma input_int_reads (prompt : message) t n t' :
  input_int prompt t = (Done n, t') -> (length (stdin t') < length (stdin t))%nat.
Proof.
  intros Hi. apply input_int_lines_spec in Hi as (bad & good & -> & _).
  rewrite length_app. simpl. lia.
Qed.

Lemma input_int_fails (prompt : message) t e t' :
  input_int prompt t = (Failed e, t') -> e = EOFError.
Proof. intros Hi. by apply input_int_lines_spec in Hi as (-> & _). Qed.

Lemma input_int_first (prompt : message) (bad : list string) : forall out good rest n,
  Forall (fun l => int l = None) bad -> int good = Some n ->
  input_int_lines prompt (bad ++ good :: rest) out
  = (Done n, {| stdin := rest;
                stdout := out ++ mjoin (replicate (length bad) [prompt; not_a_number])
                              ++ [prompt] |}).
Proof.
  induction bad as [|line bad IH]; intros out good rest n Hbad Hgood; simpl.
  - by rewrite Hgood.
  - apply Forall_cons in Hbad as [Hline Hbad]. rewrite Hline.
    rewrite (IH _ _ _ _ Hbad Hgood). by rewrite <- !app_assoc.
Qed.

Lemma input_int_none (prompt : message) (lines : list string) : forall out,
  Forall (fun l => int l = None) lines ->
  input_int_lines prompt lines out
  = (Failed EOFError,
     {| stdin := [];
        stdout := out ++ mjoin (replicate (length lines) [prompt; not_a_number])
                      ++ [prompt] |}).
Proof.
  induction lines as [|line lines IH]; intros out Hbad; simpl; [done|].
  apply Forall_cons in Hbad as [Hline Hbad]. rewrite Hline.
  rewrite (IH _ Hbad). by rewrite <- !app_assoc.
Qed.

(** X11.  [input_int] returns the number on the first line that [int]
    accepts, has read the lines up to that one and no further, and has
    written the prompt once for every line read with a complaint after
    each refusal; when [int] accepts no line left, the call ends in the
    [EOFError] of [input], which it does not catch. *)
Theorem input_int_first_number (prompt : message) (lines : list string)
    (out : list message) :
  (forall bad good rest n,
     lines = bad ++ good :: rest ->
     Forall (fun l => int l = None) bad -> int good = Some n ->
     input_int prompt {| stdin := lines; stdout := out |}
     = (Done n, {| stdin := rest;
                   stdout := out ++ mjoin (replicate (length bad) [prompt; not_a_number])
                                 ++ [prompt] |})) /\
  (Forall (fun l => int l = None) lines ->
   input_int prompt {| stdin := lines; stdout := out |}
   = (Failed EOFError,
      {| stdin := [];
         stdout := out ++ mjoin (replicate (length lines) [prompt; not_a_number])
                       ++ [prompt] |})).
Proof.
  split.
  - intros bad good rest n -> Hbad Hgood. by apply input_int_first.
  - apply input_int_none.
Qed.

Lemma Decimal_floordiv_fails (a b : Decimal) (e : failure) :
  (a // b)%D = Failed e -> e = DivisionByZero \/ e = InvalidOperation.
Proof.
  unfold Decimal_floordiv. repeat case_match; intros [= <-]; auto.
Qed.

(** Of the exceptions of [buy], a tracked symbol leaves [NotEnoughCash]. *)
Lemma buy_raises_NotEnoughCash asset amount s price e s' :
  getattr (current_prices s) asset = Price price ->
  buy asset amount s = (Raised e, s') -> e = NotEnoughCash.
Proof.
  unfold buy. intros ->. destruct (_ <? _)%D; [congruence|].
  simpl. by destruct (defaultdict_getitem (assets s) asset).
Qed.

Lemma buy_returns_tt asset amount s (u : unit) s' :
  buy asset amount s = (Return u, s') -> buy asset amount s = (Return tt, s').
Proof. by destruct u. Qed.

Lemma buy_action_loop_spec (fuel : nat) : forall s t r s' t',
  buy_action_loop fuel field_names s t = (r, s', t') ->
  match r with
  | Done _ =>
      s' = s \/
      exists asset price max_amount amount,
        asset ∈ field_names /\ getattr (current_prices s) asset = Price price /\
        (cash s // price)%D = Done max_amount /\
        Decimal_le (Decimal_of_int amount) max_amount /\
        buy asset amount s = (Return tt, s')
  | Failed e => s' = s /\ (e = EOFError \/ e = DivisionByZero \/ e = InvalidOperation)
  end.
Proof.
  induction fuel as [|fuel IH]; intros s t r s' t' Hl; cbn [buy_action_loop] in Hl.
  { injection Hl as <- <- <-. auto. }
  destruct (input_int ask_asset_to_buy t) as [[asset_idx|e] t1] eqn:Hidx.
  2: { injection Hl as <- <- <-. apply input_int_fails in Hidx. auto. }
  destruct ((1 <=? asset_idx) && (asset_idx <=? Z.of_nat (length field_names)))
    eqn:Hrange; [|by apply IH in Hl].
  apply andb_true_iff in Hrange as [H1 H2]. apply Z.leb_le in H1, H2.
  destruct (field_names !! Z.to_nat (asset_idx - 1)) as [asset|] eqn:Hasset.
  2: { apply lookup_ge_None in Hasset. lia. }
  assert (Hin : asset ∈ field_names) by (by eapply list_elem_of_lookup_2).
  destruct (proj1 (getattr_tracked (current_prices s) asset) Hin) as [price Hg].
  rewrite Hg in Hl.
  destruct (cash s // price)%D as [max_amount|e] eqn:Hdiv.
  2: { injection Hl as <- <- <-. apply Decimal_floordiv_fails in Hdiv. tauto. }
  destruct (max_amount =? Decimal_of_int 0)%D.
  { injection Hl as <- <- <-. auto. }
  destruct (input_int (ask_amount_to_buy asset max_amount)
              (print (max_to_buy asset max_amount) t1)) as [[amount|e] t2] eqn:Hamount.
  2: { injection Hl as <- <- <-. apply input_int_fails in Hamount. auto. }
  destruct (max_amount <? Decimal_of_int amount)%D eqn:Hmax; [by apply IH in Hl|].
  apply Decimal_ltb_ge in Hmax.
  destruct (buy asset amount s) as [[u|e] s2] eqn:Hbuy.
  - injection Hl as <- <- <-. right. exists asset, price, max_amount, amount.
    split_and!; try done. by destruct u.
  - pose proof (buy_raises_NotEnoughCash _ _ _ _ _ _ Hg Hbuy) as ->.
    apply buy_raised in Hbuy as ->. by apply IH in Hl.
Qed.


(** The fuel of the loop is never used up: any amount above the number of
    lines left gives the same result. *)
Lemma buy_action_loop_fuel (fuel : nat) : forall fuel' assets_list s t,
  (length (stdin t) < fuel)%nat -> (length (stdin t) < fuel')%nat ->
  buy_action_loop fuel assets_list s t = buy_action_loop fuel' assets_list s t.
Proof.
  induction fuel as [|fuel IH]; intros fuel' assets_list s t Hf Hf'; [lia|].
  destruct fuel' as [|fuel']; [lia|]. cbn [buy_action_loop].
  destruct (input_int ask_asset_to_buy t) as [[asset_idx|e] t1] eqn:Hidx; [|done].
  apply input_int_reads in Hidx.
  destruct (_ && _); [|apply IH; simpl; lia].
  destruct (assets_list !! _) as [asset|]; [|done].
  destruct (getattr (current_prices s) asset) as [price| |]; [|done..].
  destruct (cash s // price)%D as [max_amount|e]; [|done].
  destruct (max_amount =? Decimal_of_int 0)%D; [done|].
  destruct (input_int (ask_amount_to_buy asset max_amount) _)
    as [[amount|e] t2] eqn:Hamount; [|done].
  apply input_int_reads in Hamount. simpl in Hamount.
  destruct (max_amount <? Decimal_of_int amount)%D; [apply IH; simpl; lia|].
  destruct (buy asset amount s) as [[u|e] s2]; [done|].
  destruct (caught_by_buy_action e); [apply IH; simpl; lia|done].
Qed.

Lemma input_int_line (prompt : message) t (line : string) (rest : list string) (n : Z) :
  stdin t = line :: rest -> int line = Some n ->
  input_int prompt t = (Done n, {| stdin := rest; stdout := stdout t ++ [prompt] |}).
Proof. unfold input_int. intros -> Hn. simpl. by rewrite Hn. Qed.

(** A decimal at or below zero is not above one at or above zero. *)
Lemma Decimal_le_by_sign (a b : Decimal) :
  coefficient a <= 0 -> 0 <= coefficient b -> Decimal_le a b.
Proof.
  intros Ha Hb. apply (Decimal_le_scaled a b (Z.min (exponent a) (exponent b))); [lia..|].
  unfold scaled.
  pose proof (pow10_pos (exponent a - Z.min (exponent a) (exponent b)) ltac:(lia)).
  pose proof (pow10_pos (exponent b - Z.min (exponent a) (exponent b)) ltac:(lia)).
  nia.
Qed.

(** A quotient above zero over a price above zero: the cash is above zero. *)
Lemma Decimal_floordiv_pos (a b q : Decimal) :
  (a // b)%D = Done q -> 0 < coefficient b -> 0 < coefficient q -> 0 < coefficient a.
Proof.
  unfold Decimal_floordiv. intros Hq Hb Hpos.
  destruct (coefficient b =? 0); [done|].
  destruct (10 ^ prec <=? _); [done|]. injection Hq as <-. simpl in Hpos.
  set (e := Z.min (exponent a) (exponent b)) in *.
  assert (0 < scaled e b).
  { unfold scaled. pose proof (pow10_pos (exponent b - e) ltac:(lia)). nia. }
  destruct (Z.le_gt_cases (scaled e a) 0) as [Hle|Hgt].
  - pose proof (Z.quot_opp_l (scaled e a) (scaled e b) ltac:(lia)) as Ho.
    pose proof (Z.quot_pos (- scaled e a) (scaled e b) ltac:(lia) ltac:(lia)). lia.
  - unfold scaled in Hgt. pose proof (pow10_pos (exponent a - e) ltac:(lia)). nia.
Qed.



Lemma sell_action_loop_fuel (fuel : nat) : forall fuel' owned_assets s t,
  (length (stdin t) < fuel)%nat -> (length (stdin t) < fuel')%nat ->
  sell_action_loop fuel owned_assets s t = sell_action_loop fuel' owned_assets s t.
Proof.
  induction fuel as [|fuel IH]; intros fuel' owned_assets s t Hf Hf'; [lia|].
  destruct fuel' as [|fuel']; [lia|]. cbn [sell_action_loop].
  destruct (input_int ask_asset_to_sell t) as [[asset_idx|e] t1] eqn:Hidx; [|done].
  apply input_int_reads in Hidx.
  destruct (_ && _); [|apply IH; simpl; lia].
  destruct (owned_assets !! _) as [[asset quantity]|]; [|done].
  destruct (input_int (ask_amount_to_sell asset quantity) _)
    as [[amount|e] t2] eqn:Hamount; [|done].
  apply input_int_reads in Hamount.
  destruct (quantity <? amount); [apply IH; simpl; lia|].
  destruct (sell asset amount s) as [[u|e] s2]; [done|].
  destruct (caught_by_sell_action e); [apply IH; simpl; lia|done].
Qed.

(** What [sell] can raise for a key of the holdings and an amount within
    the holding: the symbol is no attribute of the prices, or no price. *)
Lemma sell_raises asset amount s quantity e s' :
  assets s !! asset = Some quantity -> amount <= quantity ->
  sell asset amount s = (Raised e, s') ->
  (e = WrongAssetName \/ e = TypeError) /\ asset ∉ field_names.
Proof.
  unfold sell. intros -> Hq. destruct (Z.ltb_spec quantity amount); [lia|].
  destruct (getattr (current_prices s) asset) as [price| |] eqn:Hg; [done|..];
    intros [= <- _]; (split; [auto|]); intros Hin;
    apply (getattr_tracked (current_prices s)) in Hin as [d Hd]; congruence.
Qed.

Lemma sell_action_loop_spec (fuel : nat) : forall owned_assets s t r s' t',
  Forall (fun x => assets s !! x.1 = Some x.2 /\ 0 < x.2) owned_assets ->
  sell_action_loop fuel owned_assets s t = (r, s', t') ->
  match r with
  | Done _ =>
      exists asset quantity amount,
        assets s !! asset = Some quantity /\ 0 < quantity /\ amount <= quantity /\
        sell asset amount s = (Return tt, s')
  | Failed e => s' = s /\ (tracks s -> e = EOFError)
  end.
Proof.
  induction fuel as [|fuel IH]; intros owned_assets s t r s' t' Hown Hl;
    cbn [sell_action_loop] in Hl.
  { injection Hl as <- <- <-. auto. }
  destruct (input_int ask_asset_to_sell t) as [[asset_idx|e] t1] eqn:Hidx.
  2: { injection Hl as <- <- <-. apply input_int_fails in Hidx. auto. }
  destruct ((1 <=? asset_idx) && (asset_idx <=? Z.of_nat (length owned_assets)))
    eqn:Hrange; [|by eapply IH].
  apply andb_true_iff in Hrange as [H1 H2]. apply Z.leb_le in H1, H2.
  destruct (owned_assets !! Z.to_nat (asset_idx - 1)) as [[asset quantity]|] eqn:Hasset.
  2: { apply lookup_ge_None in Hasset. lia. }
  pose proof (Forall_lookup_1 _ _ _ _ Hown Hasset) as [Hkey Hpos]. simpl in Hkey, Hpos.
  destruct (input_int (ask_amount_to_sell asset quantity) t1)
    as [[amount|e] t2] eqn:Hamount.
  2: { injection Hl as <- <- <-. apply input_int_fails in Hamount. auto. }
  destruct (Z.ltb_spec quantity amount) as [Hover|Hwithin]; [by eapply IH|].
  destruct (sell asset amount s) as [[u|e] s2] eqn:Hsell.
  - injection Hl as <- <- <-. exists asset, quantity, amount.
    split_and!; try done. by destruct u.
  - destruct (sell_raises _ _ _ _ _ _ Hkey Hwithin Hsell) as [He Hout].
    apply sell_raised in Hsell as ->.
    destruct (caught_by_sell_action e) eqn:Hcaught; [by eapply IH|].
    injection Hl as <- <- <-. split; [done|]. intros Hs. destruct Hout.
    apply Hs. by eexists.
Qed.

(** The assets on offer are holdings above zero. *)
Lemma owned_assets_held `{!Builtins} (a : gmap string Z) :
  items_listed ->
  Forall (fun x => a !! x.1 = Some x.2 /\ 0 < x.2) (filter (fun x => 0 < x.2) (items a)).
Proof.
  intros Hitems. apply Forall_forall. intros [asset quantity] Hin.
  apply list_elem_of_filter in Hin as [Hpos Hin]. rewrite (Hitems a) in Hin.
  apply elem_of_map_to_list in Hin. done.
Qed.


(** X16.  With no holding above zero [sell_action] says so and returns:
    it reads nothing and changes nothing, also when some holdings are
    below zero. *)
Theorem sell_action_nothing_to_sell s t :
  items_listed ->
  (forall asset quantity, assets s !! asset = Some quantity -> quantity <= 0) ->
  sell_action s t = (Done tt, s, print nothing_to_sell t).
Proof.
  intros Hitems Hnone. unfold sell_action.
  pose proof (owned_assets_held (assets s) Hitems) as Hown.
  destruct (filter (fun x => 0 < x.2) (items (assets s))) as [|[asset quantity] owned];
    [done|].
  apply Forall_cons in Hown as [[Hkey Hpos] _]. simpl in Hkey, Hpos.
  apply Hnone in Hkey. lia.
Qed.


(** ** The summary and the verdict *)

Lemma omap_pointwise {A B} (f g : A -> option B) (l : list A) :
  (forall x, f x = g x) -> omap f l = omap g l.
Proof.
  intros Hfg. induction l as [|x l IH]; [done|].
  cbn [omap list_omap]. by rewrite Hfg, IH.
Qed.

(** A second read of [asset_values] finds what the first found and
    leaves the object as the first left it. *)
Lemma asset_values_again s :
  asset_values (asset_values s).2 = ((asset_values s).1, (asset_values s).2).
Proof.
  assert (Hstate : (asset_values (asset_values s).2).2 = (asset_values s).2).
  { rewrite (asset_values_state (asset_values s).2). rewrite asset_values_state.
    unfold set_assets. cbn [assets current_prices days cash day_count current_date
                            initial_value].
    f_equal. apply map_eq. intros k. rewrite !asset_values_loop_lookup.
    destruct (assets s !! k); [done|]. by case_decide. }
  assert (Hlist : (asset_values (asset_values s).2).1 = (asset_values s).1).
  { unfold asset_values at 1 3.
    pose proof (asset_values_loop_listing dataclass_fields
                  (current_prices (asset_values s).2) (assets (asset_values s).2)) as H1.
    pose proof (asset_values_loop_listing dataclass_fields
                  (current_prices s) (assets s)) as H2.
    destruct (asset_values_loop dataclass_fields (current_prices (asset_values s).2)
                (assets (asset_values s).2)) as [vs1 a1].
    destruct (asset_values_loop dataclass_fields (current_prices s) (assets s))
      as [vs2 a2].
    cbn [fst] in *. rewrite H1, H2. apply omap_pointwise. intros f.
    fold (holding (asset_values s).2 f.1). fold (holding s f.1).
    rewrite asset_values_holding. by rewrite asset_values_state. }
  destruct (asset_values (asset_values s).2) as [vs s1]. simpl in *. by subst.
Qed.

Lemma value_again s :
  value (asset_values s).2 = ((value s).1, (asset_values s).2).
Proof.
  unfold value. rewrite asset_values_again.
  destruct (asset_values s) as [vs s1] eqn:Hs. cbn [fst snd].
  f_equal. f_equal. change s1 with (vs, s1).2. rewrite <- Hs.
  by rewrite asset_values_state.
Qed.

Lemma profit_again s :
  profit (asset_values s).2 = ((profit s).1, (asset_values s).2).
Proof.
  unfold profit. rewrite value_again.
  pose proof (value_state s) as Hst. destruct (value s) as [v s1]. cbn [fst snd] in *.
  by rewrite Hst.
Qed.

Lemma print_summary_unfold s t :
  print_summary s t
  = ((asset_values s).2,
     print (summary (day_count s)
              (if existsb (fun x : string * Z * Decimal => 0 <? x.1.2) (asset_values s).1
               then Some (asset_values s).1 else None)
              (cash s) (value s).1 (profit s).1
              ((fun f => (f.1, f.2 (current_prices s))) <$> dataclass_fields)) t).
Proof.
  unfold print_summary.
  pose proof (asset_values_again s) as Hagain.
  pose proof (value_again s) as Hvalue.
  pose proof (profit_again s) as Hprofit.
  pose proof (asset_values_state s) as Hstate.
  destruct (asset_values s) as [vs s1]. cbn [fst snd] in *.
  destruct (existsb _ vs).
  - rewrite Hagain, Hvalue, Hprofit, Hstate. reflexivity.
  - rewrite Hvalue, Hprofit, Hstate. reflexivity.
Qed.

Lemma existsb_positive_holding s :
  existsb (fun x : string * Z * Decimal => 0 <? x.1.2) (asset_values s).1 = false <->
  forall asset, asset ∈ field_names -> holding s asset <= 0.
Proof.
  unfold asset_values.
  pose proof (asset_values_loop_listing dataclass_fields (current_prices s) (assets s))
    as Hl.
  destruct (asset_values_loop dataclass_fields (current_prices s) (assets s)) as [vs a].
  cbn [fst] in *. subst vs. unfold field_names. fold (holding s).
  generalize dataclass_fields. intros fs.
  induction fs as [|f fs IH].
  - split; [|done]. intros _ asset Hin. by apply elem_of_nil in Hin.
  - cbn [omap list_omap fmap list_fmap].
    change (default 0 (assets s !! f.1)) with (holding s f.1).
    destruct (Z.eqb_spec (holding s f.1) 0) as [Hz|Hnz]; cbn [mbind option_bind].
    + rewrite IH. split.
      * intros Hfs asset Hin. apply elem_of_cons in Hin as [->|Hin]; [lia|by apply Hfs].
      * intros Hall asset Hin. apply Hall. by right.
    + cbn [existsb fst snd]. rewrite orb_false_iff, IH, Z.ltb_ge. split.
      * intros [Hf Hfs] asset Hin.
        apply elem_of_cons in Hin as [->|Hin]; [done|by apply Hfs].
      * intros Hall. split; [apply Hall; by left|].
        intros asset Hin. apply Hall. by right.
Qed.


(** The difference of two decimals has the sign of their comparison. *)
Lemma Decimal_sub_sgn (a b : Decimal) :
  Z.sgn (coefficient (a - b)) =
  Z.sgn (scaled (Z.min (exponent a) (exponent b)) a
         - scaled (Z.min (exponent a) (exponent b)) b).
Proof.
  unfold Decimal_sub, Decimal_add. rewrite Decimal_fix_sgn.
  cbn [coefficient exponent Decimal_neg]. rewrite scaled_neg. f_equal.
Qed.


Lemma print_result_state s t : (print_result s t).1 = (exec Summary s).2.
Proof. unfold print_result. simpl. by destruct (profit s). Qed.

End dialogue_facts.

(** ** The dialogue as a run of calls on the engine *)

Section dialogue_runs.
Context {I : Type} `{Iterator I} `{Builtins}.
Implicit Types (s : PortfolioSimulator I) (t : terminal).

Lemma run_commands_app (cs cs' : list command) s :
  run_commands (cs ++ cs') s = run_commands cs' (run_commands cs s).
Proof. unfold run_commands. apply fold_left_app. Qed.

Lemma buy_action_state s t : one_call s (buy_action s t).1.2.
Proof.
  unfold buy_action.
  destruct (buy_action_loop _ field_names s _) as [[r s'] t'] eqn:Hl.
  apply buy_action_loop_spec in Hl. simpl. destruct r as [u|e].
  - destruct Hl as [->|(asset & price & max_amount & amount & _ & _ & _ & _ & Hbuy)];
      [by left|].
    right. exists (Buy asset amount). split; [done|]. simpl. by rewrite Hbuy.
  - destruct Hl as [-> _]. by left.
Qed.

Lemma sell_action_loop_state (fuel : nat) : forall owned_assets s t,
  one_call s (sell_action_loop fuel owned_assets s t).1.2.
Proof.
  induction fuel as [|fuel IH]; intros owned_assets s t; cbn [sell_action_loop];
    [by left|].
  destruct (input_int ask_asset_to_sell t) as [[asset_idx|e] t1]; [|by left].
  destruct (_ && _); [|apply IH].
  destruct (owned_assets !! _) as [[asset quantity]|]; [|by left].
  destruct (input_int (ask_amount_to_sell asset quantity) t1) as [[amount|e] t2];
    [|by left].
  destruct (quantity <? amount); [apply IH|].
  destruct (sell asset amount s) as [[u|e] s2] eqn:Hsell.
  - right. exists (Sell asset amount). split; [done|]. simpl. by rewrite Hsell.
  - apply sell_raised in Hsell as ->.
    destruct (caught_by_sell_action e); [apply IH|by left].
Qed.

Lemma sell_action_state s t : one_call s (sell_action s t).1.2.
Proof.
  unfold sell_action. destruct (filter _ _) as [|x owned_assets]; [by left|].
  apply sell_action_loop_state.
Qed.

Lemma user_action_state s t : one_call s (user_action s t).1.2.
Proof.
  unfold user_action. destruct (input ask_action t) as [[line|e] t1]; [|by left].
  destruct (String.eqb (strip line) "1"); [apply buy_action_state|].
  destruct (String.eqb (strip line) "2"); [apply sell_action_state|].
  destruct (String.eqb (strip line) "3").
  { assert (Hday : (end_day s).2 = (exec NextDay s).2).
    { unfold end_day. simpl. by destruct (next_day s) as [[u|[]] s1]. }
    destruct (end_day s) as [[u|e] s1]; simpl in *; right; by exists NextDay. }
  destruct (String.eqb (strip line) "4"); by left.
Qed.

Lemma one_call_commands s s' :
  one_call s s' -> exists cs, Forall (fun c => c <> Summary) cs /\ s' = run_commands cs s.
Proof.
  intros [->|(c & Hc & ->)]; [by exists []|]. exists [c]. split; [|done].
  by constructor.
Qed.

Lemma print_summary_state s t : (print_summary s t).1 = (exec Summary s).2.
Proof. rewrite print_summary_unfold. simpl. by rewrite profit_state. Qed.

Lemma run_loop_state (fuel : nat) : forall s t,
  exists cs, (run_loop fuel s t).1.2 = run_commands cs s.
Proof.
  induction fuel as [|fuel IH]; intros s t; cbn [run_loop]; [by exists []|].
  pose proof (print_summary_state s t) as Hsum.
  destruct (print_summary s t) as [s1 t1]. simpl in Hsum.
  destruct (one_call_commands s1 _ (user_action_state s1 t1)) as (cs & _ & Hcs).
  destruct (user_action s1 t1) as [[[u|e] s2] t2]; simpl in Hcs.
  - destruct (IH s2 t2) as (cs' & Hcs'). exists (Summary :: cs ++ cs').
    rewrite Hcs'. change (Summary :: cs ++ cs') with ([Summary] ++ cs ++ cs').
    rewrite !run_commands_app. by rewrite Hcs, Hsum.
  - assert (Hs2 : s2 = run_commands (Summary :: cs) s).
    { change (Summary :: cs) with ([Summary] ++ cs).
      rewrite run_commands_app. by rewrite Hcs, Hsum. }
    exists (Summary :: cs). by destruct e as [[]| | | | |].
Qed.

(** X20.  The dialogue acts on the engine through its methods only: a
    [user_action] leaves the object as it was or as one call of [buy],
    [sell] or [next_day] leaves it, and what [run] leaves is what some
    sequence of such calls and of valuation reads leaves, whatever is
    typed. *)
Theorem dialogue_acts_through_the_engine s t :
  ((user_action s t).1.2 = s \/
   exists c, c <> Summary /\ (user_action s t).1.2 = (exec c s).2) /\
  (exists cs, (run s t).1.2 = run_commands cs s).
Proof.
  split; [apply user_action_state|].
  unfold run. destruct (run_loop_state (S (length (stdin (print greeting t)))) s
                          (print greeting t)) as (cs & Hcs).
  destruct (run_loop _ s _) as [[[u|e] s1] t1]; simpl in Hcs; [|by exists cs].
  pose proof (print_result_state s1 t1) as Hres.
  destruct (print_result s1 t1) as [s2 t2]. simpl in *.
  exists (cs ++ [Summary]). rewrite run_commands_app. by rewrite Hres, Hcs.
Qed.

End dialogue_runs.


(* ===================================================================== *)
(** * The real history                                                    *)
(* ===================================================================== *)

Section real_history.
Context `{Binance}.
Implicit Types (g : real_generator) (w : world).

Lemma get_crypto_prices_loop_answers (symbols : list string) :
  forall (prices : gmap string Decimal) w,
  match get_crypto_prices_loop symbols prices w with
  | (Some prices', w') =>
      answers symbols w = ((answers symbols w).1, w') /\
      length (answers symbols w).1 = length symbols /\
      prices' = foldl (fun m x => <[x.1 := x.2]> m) prices
                  (zip symbols (answers symbols w).1)
  | (None, w') =>
      answers symbols w = ((answers symbols w).1, w') /\
      (length (answers symbols w).1 < length symbols)%nat
  end.
Proof.
  induction symbols as [|symbol symbols IH]; intros prices w; simpl; [done|].
  destruct (ticker_price symbol w) as [[price|] w1]; [|simpl; split; [done|lia]].
  specialize (IH (<[symbol := price]> prices) w1).
  destruct (get_crypto_prices_loop symbols (<[symbol := price]> prices) w1)
    as [[prices'|] w'];
    destruct (answers symbols w1) as [rest w2]; simpl in *.
  - destruct IH as ([= ->] & Hlen & ->). by rewrite Hlen.
  - destruct IH as ([= ->] & Hlen). split; [done|lia].
Qed.

(** A generator that is over stays over and asks nothing. *)
Lemma finished_next g w :
  finished g = true -> RealAssetPriceHistory_next g w = (Stopped, g, w).
Proof. unfold RealAssetPriceHistory_next. by intros ->. Qed.

Lemma finished_pulls (ws : list world) : forall g,
  finished g = true -> Forall (fun r => r = Stopped) (real_pulls ws g).
Proof.
  induction ws as [|w ws IH]; intros g Hg; simpl; [constructor|].
  rewrite finished_next by done. constructor; [done|by apply IH].
Qed.

(** What one pull does to the generator. *)
Lemma next_cases g w :
  match RealAssetPriceHistory_next g w with
  | (Yielded _, g', _) =>
      finished g = false /\ (rounds g < 30)%nat /\
      rounds g' = S (rounds g) /\ finished g' = false
  | (Stopped, g', w') => finished g' = true /\ w' = w
  | (_, g', _) => finished g' = true
  end.
Proof.
  unfold RealAssetPriceHistory_next. destruct (finished g) eqn:Hg; [done|].
  destruct (Nat.leb_spec 30 (rounds g)); [done|].
  destruct (get_crypto_prices _ w) as [[prices|] w']; [|done].
  destruct (AssetPrice_of_prices prices); [|done]. simpl. by split_and!.
Qed.

Lemma yielded_pulls (ws : list world) : forall g (i : nat) pair,
  real_pulls ws g !! i = Some (Yielded pair) ->
  (rounds g + i < 30)%nat /\
  forall j, (j < i)%nat -> exists pair', real_pulls ws g !! j = Some (Yielded pair').
Proof.
  induction ws as [|w ws IH]; intros g i pair; simpl; [done|].
  pose proof (next_cases g w) as Hcases.
  destruct (RealAssetPriceHistory_next g w) as [[r g'] w'].
  destruct i as [|i]; simpl.
  - intros [= ->]. destruct Hcases as (_ & Hrounds & _). split; [lia|]. intros j Hj. lia.
  - intros Hi.
    assert (Hrun : finished g' = false).
    { destruct (finished g') eqn:Hg'; [|done].
      pose proof (finished_pulls ws g' Hg') as Hall.
      by pose proof (Forall_lookup_1 _ _ _ _ Hall Hi). }
    destruct r as [pair0| | |]; [|destruct Hcases; congruence|congruence..].
    destruct Hcases as (_ & _ & Hrounds & _).
    destruct (IH g' i pair Hi) as [Hlt Hearlier]. split; [lia|].
    intros [|j] Hj; simpl; [by eexists|]. apply Hearlier. lia.
Qed.

Lemma answered_pull g w :
  (forall symbol w', (ticker_price symbol w').1 <> None) ->
  finished g = false -> (rounds g < 30)%nat ->
  exists pair w',
    RealAssetPriceHistory_next g w
    = (Yielded pair, {| rounds := S (rounds g); finished := false |}, w').
Proof.
  intros Hanswer Hg Hrounds. unfold RealAssetPriceHistory_next. rewrite Hg.
  destruct (Nat.leb_spec 30 (rounds g)); [lia|].
  unfold get_crypto_prices, RealAssetPriceHistory_symbols. cbn [get_crypto_prices_loop].
  repeat match goal with
  | |- context [ticker_price ?symbol ?w0] =>
      let Hs := fresh "Hs" in
      pose proof (Hanswer symbol w0) as Hs;
      destruct (ticker_price symbol w0) as [[?|] ?]; [clear Hs|done]
  end.
  unfold AssetPrice_of_prices. simplify_map_eq. by eexists _, _.
Qed.

Lemma answered_pulls (ws : list world) : forall g (i : nat),
  (forall symbol w', (ticker_price symbol w').1 <> None) ->
  finished g = false -> (rounds g + i < 30)%nat -> (i < length ws)%nat ->
  exists pair, real_pulls ws g !! i = Some (Yielded pair).
Proof.
  induction ws as [|w ws IH]; intros g i Hanswer Hg Hrounds Hi; simpl in *; [lia|].
  destruct (answered_pull g w Hanswer Hg ltac:(lia)) as (pair & w' & ->).
  destruct i as [|i]; simpl; [by eexists|].
  apply IH; simpl; try done; lia.
Qed.

Lemma late_next g w r g' w' :
  (30 <= rounds g)%nat -> RealAssetPriceHistory_next g w = (r, g', w') -> r = Stopped.
Proof.
  unfold RealAssetPriceHistory_next. intros Hlate.
  destruct (finished g); [congruence|].
  destruct (Nat.leb_spec 30 (rounds g)); [congruence|lia].
Qed.

Lemma late_pulls (ws : list world) : forall g (i : nat) r,
  (30 <= rounds g + i)%nat -> real_pulls ws g !! i = Some r -> r = Stopped.
Proof.
  induction ws as [|w ws IH]; intros g i r Hlate; simpl; [done|].
  pose proof (next_cases g w) as Hcases.
  destruct (RealAssetPriceHistory_next g w) as [[r0 g'] w'] eqn:Hnext.
  destruct i as [|i]; simpl.
  - intros [= ->]. eapply late_next; [|exact Hnext]. lia.
  - intros Hr. destruct (finished g') eqn:Hg'.
    + pose proof (finished_pulls ws g' Hg') as Hall.
      by pose proof (Forall_lookup_1 _ _ _ _ Hall Hr).
    + destruct r0 as [pair0| | |]; [|destruct Hcases; congruence|congruence..].
      destruct Hcases as (_ & _ & Hrounds & _). apply (IH g' i r); [lia|done].
Qed.

(** X22.  A real history lasts thirty days at most: whatever the exchange
    answers and whenever the pulls are made, the pulls from number 30 on
    raise [StopIteration]; a pull that does so asks the exchange nothing;
    a pull yields only if all the pulls before it did; and if the exchange
    answers every request, the first thirty pulls all yield. *)
Theorem real_history_has_thirty_days (ws : list world) :
  (forall (i : nat) r, (30 <= i)%nat ->
     real_pulls ws RealAssetPriceHistory_iter !! i = Some r -> r = Stopped) /\
  (forall g w, (RealAssetPriceHistory_next g w).1.1 = Stopped ->
     (RealAssetPriceHistory_next g w).2 = w) /\
  (forall (i j : nat) pair, (j < i)%nat ->
     real_pulls ws RealAssetPriceHistory_iter !! i = Some (Yielded pair) ->
     exists pair', real_pulls ws RealAssetPriceHistory_iter !! j = Some (Yielded pair')) /\
  ((forall symbol w, (ticker_price symbol w).1 <> None) ->
   forall i : nat, (i < 30)%nat -> (i < length ws)%nat ->
     exists pair, real_pulls ws RealAssetPriceHistory_iter !! i = Some (Yielded pair)).
Proof.
  split_and!.
  - intros i r Hi Hr. by eapply (late_pulls ws RealAssetPriceHistory_iter i r).
  - intros g w Hstop. pose proof (next_cases g w) as Hcases.
    destruct (RealAssetPriceHistory_next g w) as [[r g'] w']. simpl in *. subst r.
    by destruct Hcases.
  - intros i j pair Hj Hi. by eapply yielded_pulls.
  - intros Hanswer i Hi Hlen. by apply answered_pulls.
Qed.

(** X23.  Every pair of a real history costs seven requests, made in the
    order of [symbols], and each field of the snapshot is the answer to
    the request for its symbol, the field [XPR] that for [XRPUSDT]; the
    date is the one the calendar shows after the last answer, not a day
    counted on from the start.  If any of the seven requests fails, the
    pull raises after the failed request and the rest are not made. *)
Theorem real_prices_are_the_answers g w :
  match RealAssetPriceHistory_next g w with
  | (Yielded (current_date, asset_price), g', w') =>
      answers RealAssetPriceHistory_symbols w = (price_list asset_price, w') /\
      current_date = date_today w' /\ rounds g' = S (rounds g)
  | (RequestFailed, g', w') =>
      answers RealAssetPriceHistory_symbols w
        = ((answers RealAssetPriceHistory_symbols w).1, w') /\
      (length (answers RealAssetPriceHistory_symbols w).1 < 7)%nat
  | (Stopped, g', w') => w' = w
  | (KeyError, _, _) => False
  end.
Proof.
  unfold RealAssetPriceHistory_next. destruct (finished g); [done|].
  destruct (Nat.leb_spec 30 (rounds g)); [done|].
  unfold get_crypto_prices.
  pose proof (get_crypto_prices_loop_answers RealAssetPriceHistory_symbols ∅ w) as Hloop.
  destruct (get_crypto_prices_loop RealAssetPriceHistory_symbols ∅ w)
    as [[prices|] w']; [|exact Hloop].
  destruct Hloop as (Hanswers & Hlen & ->).
  destruct (answers RealAssetPriceHistory_symbols w) as [l w2]. simpl in *.
  injection Hanswers as ->.
  by destruct l as [|btc [|eth [|bnb [|sol [|mkr [|xrp [|ada [|]]]]]]]].
Qed.

(** X24.  A request that fails ends the history: after a pull that did not
    yield, every later pull raises [StopIteration], whatever the exchange
    would answer by then. *)
Theorem failed_request_ends_the_history (ws : list world) (i j : nat) (r r' : pulled) :
  real_pulls ws RealAssetPriceHistory_iter !! i = Some r ->
  (forall pair, r <> Yielded pair) -> (i < j)%nat ->
  real_pulls ws RealAssetPriceHistory_iter !! j = Some r' ->
  r' = Stopped.
Proof.
  generalize RealAssetPriceHistory_iter. revert i j.
  induction ws as [|w ws IH]; intros i j g Hi Hr Hij Hj; simpl in *; [done|].
  pose proof (next_cases g w) as Hcases.
  destruct (RealAssetPriceHistory_next g w) as [[r0 g'] w'].
  destruct j as [|j]; [lia|]. simpl in Hj.
  destruct i as [|i]; simpl in Hi.
  - injection Hi as ->.
    assert (Hg' : finished g' = true).
    { destruct r as [pair| | |]; [by destruct (Hr pair)|by destruct Hcases|done..]. }
    pose proof (finished_pulls ws g' Hg') as Hall.
    by pose proof (Forall_lookup_1 _ _ _ _ Hall Hj).
  - apply (IH i j g' Hi Hr); [lia|done].
Qed.

End real_history.

(** ** The theorems on the dialogue and on the real history, at work *)

Lemma input_int_first_number_witness :
  input_int ask_asset_to_buy {| stdin := ["x"; "12"; "y"]%string; stdout := [] |}
  = (Done 12, {| stdin := ["y"]%string;
                 stdout := [ask_asset_to_buy; not_a_number; ask_asset_to_buy] |}) /\
  input_int ask_asset_to_buy {| stdin := ["x"]%string; stdout := [] |}
  = (Failed EOFError,
     {| stdin := []; stdout := [ask_asset_to_buy; not_a_number; ask_asset_to_buy] |}).
Proof.
  split.
  - apply (proj1 (@input_int_first_number example_builtins ask_asset_to_buy
                    ["x"; "12"; "y"]%string [])
             ["x"]%string "12"%string ["y"]%string 12); [reflexivity| |reflexivity].
    by repeat constructor.
  - apply (proj2 (@input_int_first_number example_builtins ask_asset_to_buy
                    ["x"]%string [])).
    by repeat constructor.
Defined.



Lemma example_items_listed : @items_listed example_builtins.
Proof. intros a. reflexivity. Qed.


Lemma sell_action_nothing_to_sell_witness :
  exists s,
    create one_day (Decimal_of_int 100000) = Return s /\
    sell_action s {| stdin := ["1"]%string; stdout := [] |}
    = (Done tt, s, {| stdin := ["1"]%string; stdout := [nothing_to_sell] |}).
Proof.
  destruct (create one_day (Decimal_of_int 100000)) as [s|e] eqn:Hs;
    [|by vm_compute in Hs].
  exists s. split; [reflexivity|].
  apply (@sell_action_nothing_to_sell _ example_builtins s
           {| stdin := ["1"]%string; stdout := [] |} example_items_listed).
  intros asset quantity Hasset.
  destruct (create_valuation one_day _ s Hs) as (_ & _ & _ & Hhold & _).
  specialize (Hhold asset). unfold holding in Hhold. rewrite Hasset in Hhold.
  simpl in Hhold. lia.
Defined.



Lemma real_history_has_thirty_days_witness :
  (exists pair,
     real_pulls (replicate 31 0%nat) RealAssetPriceHistory_iter !! 29%nat
     = Some (Yielded pair)) /\
  real_pulls (replicate 31 0%nat) RealAssetPriceHistory_iter !! 30%nat = Some Stopped.
Proof.
  destruct (@real_history_has_thirty_days example_exchange (replicate 31 0%nat))
    as (Hlate & _ & _ & Hfirst).
  split.
  - apply Hfirst; [done|lia|simpl; lia].
  - match goal with |- ?pull = _ => destruct pull as [r|] eqn:Hr end;
      [|by vm_compute in Hr].
    f_equal. by apply (Hlate 30%nat r).
Defined.

Lemma failed_request_ends_the_history_witness :
  @real_pulls closed_exchange [tt; tt] RealAssetPriceHistory_iter !! 1%nat
  = Some Stopped.
Proof.
  destruct (@real_pulls closed_exchange [tt; tt] RealAssetPriceHistory_iter !! 1%nat)
    as [r'|] eqn:Hr; [|by vm_compute in Hr].
  f_equal.
  apply (@failed_request_ends_the_history closed_exchange [tt; tt] 0 1
           RequestFailed r'); [reflexivity|done|lia|exact Hr].
Defined.

(** ** What the menu of [buy_action] offers can be paid *)

Lemma round_half_even_below (n k m : Z) :
  0 <= k -> n <= m * 10 ^ k -> round_half_even n k <= m.
Proof.
  intros Hk Hm. unfold round_half_even.
  pose proof (pow10_pos k Hk) as Hp.
  pose proof (Z.div_mod n (10 ^ k) ltac:(lia)) as Hdiv.
  pose proof (Z.mod_pos_bound n (10 ^ k) Hp) as Hmod.
  destruct (Z.ltb_spec (2 * (n mod 10 ^ k)) (10 ^ k)); [nia|].
  assert (n / 10 ^ k < m) by nia.
  repeat case_match; lia.
Qed.

Lemma fits_bound (c : Decimal) : fits c -> Z.abs (coefficient c) < 10 ^ prec.
Proof.
  unfold fits. intros Hc.
  destruct (Z.eq_dec (Z.abs (coefficient c)) 0) as [->|Hnz]; [done|].
  destruct (ndigits_spec (Z.abs (coefficient c)) ltac:(lia)) as (H1 & H2 & H3).
  pose proof (pow10_le (ndigits (Z.abs (coefficient c))) prec ltac:(lia)). lia.
Qed.

(** Rounding does not lift a decimal over one of [prec] digits that it
    was not above. *)
Lemma Decimal_fix_below (x c : Decimal) :
  0 <= coefficient x -> fits c -> Decimal_le x c -> Decimal_le (Decimal_fix x) c.
Proof.
  intros Hx Hc Hle. unfold Decimal_fix.
  rewrite (Z.abs_eq (coefficient x)) by done.
  set (X := coefficient x) in *. set (k := ndigits X - prec).
  destruct (Z.leb_spec k 0) as [|Hk]; [done|].
  assert (HX : 0 < X).
  { destruct (Z.eq_dec X 0) as [Hz|]; [|lia]. unfold k in Hk. rewrite Hz in Hk.
    change (ndigits 0) with 1 in Hk. unfold prec in Hk. lia. }
  rewrite (Z.sgn_pos X) by done.
  destruct (ndigits_spec X HX) as (Hn1 & Hn2 & Hn3).
  apply fits_bound in Hc.
  set (e0 := Z.min (exponent x) (exponent c)).
  change (scaled e0 x <= scaled e0 c) in Hle.
  unfold scaled in Hle. fold X in Hle.
  destruct (Z.le_gt_cases (exponent x + k) (exponent c)) as [Hfar|Hnear].
  - (* the short decimal is a multiple of the rounding step *)
    unfold e0 in Hle. rewrite Z.min_l, Z.sub_diag in Hle by lia.
    change (10 ^ 0) with 1 in Hle.
    replace (exponent c - exponent x) with ((exponent c - exponent x - k) + k)
      in Hle by lia.
    rewrite pow10_add in Hle by lia.
    pose proof (round_half_even_below X k
                  (coefficient c * 10 ^ (exponent c - exponent x - k)) ltac:(lia)
                  ltac:(lia)) as Hq.
    destruct (Z.eqb_spec (round_half_even X k) (10 ^ prec)) as [Hcarry|_].
    + apply (Decimal_le_scaled _ c (exponent x + k)); [simpl; lia|lia|].
      unfold scaled. cbn [coefficient exponent].
      replace (exponent x + k + 1 - (exponent x + k)) with 1 by lia.
      replace (exponent c - (exponent x + k)) with (exponent c - exponent x - k) by lia.
      rewrite Hcarry in Hq. unfold prec in *. lia.
    + apply (Decimal_le_scaled _ c (exponent x + k)); [simpl; lia|lia|].
      unfold scaled. cbn [coefficient exponent].
      rewrite Z.sub_diag.
      replace (exponent c - (exponent x + k)) with (exponent c - exponent x - k) by lia.
      change (10 ^ 0) with 1. lia.
  - (* a short decimal this fine is below [x] *)
    exfalso.
    pose proof (pow10_pos (exponent x - e0) ltac:(lia)) as Hpx.
    pose proof (pow10_pos (exponent c - e0) ltac:(lia)) as Hpc.
    assert (Hlow : 10 ^ (ndigits X - 1 + (exponent x - e0)) <= X * 10 ^ (exponent x - e0)).
    { rewrite pow10_add by lia. nia. }
    assert (Hhigh : coefficient c * 10 ^ (exponent c - e0)
                    < 10 ^ (prec + (exponent c - e0))).
    { rewrite pow10_add by (unfold prec; lia). nia. }
    assert (Hexp : 0 <= prec + (exponent c - e0)
                   <= ndigits X - 1 + (exponent x - e0)).
    { unfold k, prec in *. lia. }
    pose proof (pow10_le _ _ Hexp). lia.
Qed.

(** An amount within [cash // price] costs no more than the cash, before
    the product is rounded. *)
Lemma Decimal_floordiv_bound (a b q : Decimal) (amount : Z) :
  (a // b)%D = Done q -> 0 < coefficient b -> 0 <= coefficient a ->
  0 <= amount -> Decimal_le (Decimal_of_int amount) q ->
  Decimal_le (mkDecimal (coefficient b * amount) (exponent b)) a.
Proof.
  unfold Decimal_floordiv. intros Hq Hb Ha Hamount Hle.
  destruct (coefficient b =? 0); [done|].
  destruct (10 ^ prec <=? _); [done|]. injection Hq as <-.
  set (e := Z.min (exponent a) (exponent b)) in *.
  match type of Hle with Decimal_le ?x ?y =>
    apply (proj1 (Decimal_le_scaled x y 0 ltac:(simpl; lia) ltac:(simpl; lia))) in Hle
  end.
  unfold scaled in Hle. cbn [coefficient exponent Decimal_of_int] in Hle.
  rewrite Z.sub_diag in Hle. change (10 ^ 0) with 1 in Hle.
  rewrite !Z.mul_1_r in Hle.
  apply (Decimal_le_scaled _ a e); [simpl; lia|lia|].
  unfold scaled in *. cbn [coefficient exponent].
  pose proof (pow10_pos (exponent b - e) ltac:(lia)) as Hpb.
  pose proof (pow10_pos (exponent a - e) ltac:(lia)) as Hpa.
  set (A := coefficient a * 10 ^ (exponent a - e)) in *.
  set (B := coefficient b * 10 ^ (exponent b - e)) in *.
  assert (HB : 0 < B) by (unfold B; nia).
  assert (HA : 0 <= A) by (unfold A; nia).
  rewrite Z.quot_div_nonneg in Hle by lia.
  pose proof (Z.mul_div_le A B HB).
  transitivity (B * (A / B)); [|done]. unfold B at 1. nia.
Qed.

Section offer.
Context {I : Type} `{Builtins}.
Implicit Types (s : PortfolioSimulator I) (t : terminal).


End offer.


(** ** How a run ends *)

Section endings.
Context {I : Type} `{Iterator I} `{Builtins}.
Implicit Types (s : PortfolioSimulator I) (t : terminal).

Lemma input_int_suffix (prompt : message) t r t' :
  input_int prompt t = (r, t') -> stdin t' `suffix_of` stdin t.
Proof.
  intros Hi. apply input_int_lines_spec in Hi. destruct r as [n|e].
  - destruct Hi as (bad & good & -> & _). exists (bad ++ [good]).
    by rewrite <- app_assoc.
  - destruct Hi as (_ & -> & _). apply suffix_nil.
Qed.

Lemma buy_action_loop_suffix (fuel : nat) : forall assets_list s t,
  stdin (buy_action_loop fuel assets_list s t).2 `suffix_of` stdin t.
Proof.
  induction fuel as [|fuel IH]; intros assets_list s t; cbn [buy_action_loop]; [done|].
  destruct (input_int ask_asset_to_buy t) as [[asset_idx|e] t1] eqn:Hidx;
    apply input_int_suffix in Hidx; [|done].
  destruct (_ && _); [|by etrans; [apply IH|]].
  destruct (assets_list !! _) as [asset|]; [|done].
  destruct (getattr (current_prices s) asset) as [price| |]; [|done..].
  destruct (cash s // price)%D as [max_amount|e]; [|done].
  destruct (max_amount =? Decimal_of_int 0)%D; [done|].
  destruct (input_int (ask_amount_to_buy asset max_amount) _)
    as [[amount|e] t2] eqn:Hamount; apply input_int_suffix in Hamount;
    simpl in Hamount; [|by etrans].
  destruct (max_amount <? Decimal_of_int amount)%D.
  { etrans; [apply IH|]. simpl. by etrans. }
  destruct (buy asset amount s) as [[u|e] s2]; [simpl; by etrans|].
  destruct (caught_by_buy_action e); [|simpl; by etrans].
  etrans; [apply IH|]. simpl. by etrans.
Qed.

Lemma sell_action_loop_suffix (fuel : nat) : forall owned_assets s t,
  stdin (sell_action_loop fuel owned_assets s t).2 `suffix_of` stdin t.
Proof.
  induction fuel as [|fuel IH]; intros owned_assets s t; cbn [sell_action_loop]; [done|].
  destruct (input_int ask_asset_to_sell t) as [[asset_idx|e] t1] eqn:Hidx;
    apply input_int_suffix in Hidx; [|done].
  destruct (_ && _); [|by etrans; [apply IH|]].
  destruct (owned_assets !! _) as [[asset quantity]|]; [|done].
  destruct (input_int (ask_amount_to_sell asset quantity) t1)
    as [[amount|e] t2] eqn:Hamount; apply input_int_suffix in Hamount; [|by etrans].
  destruct (quantity <? amount).
  { etrans; [apply IH|]. simpl. by etrans. }
  destruct (sell asset amount s) as [[u|e] s2]; [simpl; by etrans|].
  destruct (caught_by_sell_action e); [|simpl; by etrans].
  etrans; [apply IH|]. simpl. by etrans.
Qed.

(** Neither menu ends in [StopGameException]. *)
Lemma sell_never_stops asset amount s s' :
  sell asset amount s <> (Raised StopGameException, s').
Proof.
  unfold sell. destruct (assets s !! asset); [|done].
  destruct (_ <? _); [done|]. by destruct (getattr (current_prices s) asset).
Qed.

Lemma sell_action_loop_goes_on (fuel : nat) : forall owned_assets s t,
  (sell_action_loop fuel owned_assets s t).1.1 <> Failed (Exn StopGameException).
Proof.
  induction fuel as [|fuel IH]; intros owned_assets s t; cbn [sell_action_loop]; [done|].
  destruct (input_int ask_asset_to_sell t) as [[asset_idx|e] t1] eqn:Hidx.
  2: { apply input_int_fails in Hidx as ->. done. }
  destruct (_ && _); [|apply IH].
  destruct (owned_assets !! _) as [[asset quantity]|]; [|done].
  destruct (input_int (ask_amount_to_sell asset quantity) t1)
    as [[amount|e] t2] eqn:Hamount.
  2: { apply input_int_fails in Hamount as ->. done. }
  destruct (quantity <? amount); [apply IH|].
  pose proof (sell_never_stops asset amount s) as Hsell.
  destruct (sell asset amount s) as [[u|e] s2]; [done|].
  destruct (caught_by_sell_action e); [apply IH|]. simpl. intros [= ->]. by eapply Hsell.
Qed.

Lemma user_action_suffix s t :
  stdin (user_action s t).2 `suffix_of` stdin t /\
  ((user_action s t).1.1 = Failed (Exn StopGameException) ->
   exists line, line ∈ stdin t /\ (strip line = "3" \/ strip line = "4")%string).
Proof.
  unfold user_action, input. destruct (stdin t) as [|line rest] eqn:Hstdin.
  { split; [simpl; by rewrite Hstdin|done]. }
  assert (Hrest : rest `suffix_of` line :: rest) by apply suffix_cons_r, reflexivity.
  destruct (String.eqb_spec (strip line) "1") as [_|_].
  { split.
    - etrans; [apply buy_action_loop_suffix|]. done.
    - unfold buy_action.
      destruct (buy_action_loop _ field_names s _) as [[r s'] t'] eqn:Hl.
      apply buy_action_loop_spec in Hl. simpl. intros ->.
      destruct Hl as [_ [|[|]]]; done. }
  destruct (String.eqb_spec (strip line) "2") as [_|_].
  { unfold sell_action. destruct (filter _ _) as [|x owned_assets]; [done|]. split.
    - etrans; [apply sell_action_loop_suffix|]. done.
    - intros Hstop. by apply sell_action_loop_goes_on in Hstop. }
  destruct (String.eqb_spec (strip line) "3") as [Hthree|_].
  { destruct (end_day s) as [[u|e] s1]; (split; [done|]); [done|].
    intros _. exists line. split; [left|by left]. }
  destruct (String.eqb_spec (strip line) "4") as [Hfour|_]; [|done].
  split; [done|]. intros _. exists line. split; [left|by right].
Qed.

Lemma run_loop_ends (fuel : nat) : forall s t,
  (run_loop fuel s t).1.1 = Done tt ->
  exists line, line ∈ stdin t /\ (strip line = "3" \/ strip line = "4")%string.
Proof.
  induction fuel as [|fuel IH]; intros s t; cbn [run_loop]; [done|].
  rewrite print_summary_unfold.
  set (s1 := (asset_values s).2). set (t1 := print _ t).
  destruct (user_action_suffix s1 t1) as [Hsuffix Hstop].
  destruct (user_action s1 t1) as [[[u|e] s2] t2]; simpl in *.
  - intros Hdone. destruct (IH s2 t2 Hdone) as (line & Hin & Hline).
    exists line. split; [|done]. destruct Hsuffix as [k ->].
    apply elem_of_app. by right.
  - destruct e as [[]| | | | |]; try done. intros _. by apply Hstop.
Qed.

(** X26.  [run] comes to its verdict only by the choice of the player: if
    it returns, one of the lines of the input reads 3 or 4 once stripped.
    On an input with no such line it ends in an exception that nothing
    catches, and [print_result] is not reached. *)
Theorem run_ends_by_choice s t :
  (run s t).1.1 = Done tt ->
  exists line, line ∈ stdin t /\ (strip line = "3" \/ strip line = "4")%string.
Proof.
  unfold run. intros Hrun. apply (run_loop_ends (S (length (stdin (print greeting t)))) s
                                    (print greeting t)).
  destruct (run_loop _ s _) as [[[u|e] s1] t1]; [by destruct u|].
  simpl in Hrun. done.
Qed.

End endings.

Lemma run_ends_by_choice_witness :
  exists s,
    create one_day (Decimal_of_int 100000) = Return s /\
    exists line, line ∈ ["1"; "1"; "1"; "3"]%string /\
                 (line = "3" \/ line = "4")%string.
Proof.
  destruct (create one_day (Decimal_of_int 100000)) as [s|e] eqn:Hs;
    [|by vm_compute in Hs].
  exists s. split; [reflexivity|].
  apply (@run_ends_by_choice _ list_next example_builtins s
           {| stdin := ["1"; "1"; "1"; "3"]%string; stdout := [] |}).
  vm_compute in Hs. injection Hs as <-. reflexivity.
Defined.
